(** * Xbox connection: the OAuth linking flow of [src/connections/Xbox/index.ts]

    A shallow embedding of [XboxConnection] (getAuthorizationUrl,
    getUserToken, exchangeCode, getUser, handleCallback) together with the
    run-time values it manipulates: parsed JSON documents, thrown
    exceptions, HTTP requests, and the connection store. *)

From Stdlib Require Import String Ascii List ZArith Bool Lia DecimalString.
Import ListNotations.
Open Scope string_scope.
Open Scope Z_scope.
Set Warnings "-register-all".

(** ** Run-time values *)

Module Js.

(** A document produced by [res.json()]. A number is identified by the text
    JavaScript prints for it ("0", "-5", "1.5", "1e+21"), which is what the
    connector can observe of it. A string is a sequence of UTF-16 code
    units, here those below 256, one per character. *)
Inductive json :=
| JNull
| JBool (b : bool)
| JNum (repr : string)
| JStr (s : string)
| JArr (items : list json)
| JObj (fields : list (string * json)).

(** A JavaScript value as the connector sees it: [None] is [undefined]. *)
Definition value := option json.

Definition undefined : value := None.

(** Exceptions reaching a [.catch] handler or the caller. The three
    [DiscordApiErrors] entries are the shared constants of the error table.
    [JsError v] is what [throw new Error(v)] raises. *)
Inductive DiscordApiErrors :=
| INVALID_OAUTH_STATE
| INVALID_OAUTH_TOKEN
| GENERAL_ERROR.

Inductive exn :=
| ApiError (message : string) (code httpStatus : Z)
| Discord (e : DiscordApiErrors)
| JsError (message : value)
| TypeError
| FetchError
| SyntaxError.

Inductive result (A : Type) :=
| Ok (a : A)
| Throw (e : exn).
Arguments Ok {A} a.
Arguments Throw {A} e.

(** Own-property lookup in an object literal: first binding of the key. *)
Fixpoint lookup (k : string) (fs : list (string * json)) : value :=
  match fs with
  | [] => None
  | (k', v) :: rest => if String.eqb k k' then Some v else lookup k rest
  end.

(** [if (v)]: null, undefined, false, 0 and the empty string are falsy. *)
Definition truthy (v : value) : bool :=
  match v with
  | None | Some JNull => false
  | Some (JBool b) => b
  | Some (JNum repr) => negb (String.eqb repr "0")
  | Some (JStr s) => negb (String.eqb s "")
  | Some (JArr _) | Some (JObj _) => true
  end.

(** [v.k] for a key that is not a prototype member: a TypeError on null
    and undefined, the own property of an object, undefined otherwise. *)
Definition get (v : value) (k : string) : result value :=
  match v with
  | None | Some JNull => Throw TypeError
  | Some (JObj fs) => Ok (lookup k fs)
  | Some _ => Ok undefined
  end.

(** [v[0]]. *)
Definition first (v : value) : result value :=
  match v with
  | None | Some JNull => Throw TypeError
  | Some (JArr items) => Ok (nth_error items 0)
  | Some (JStr (String c _)) => Ok (Some (JStr (String c "")))
  | Some (JObj fs) => Ok (lookup "0" fs)
  | Some _ => Ok undefined
  end.

Definition of_nat (n : nat) : string :=
  NilZero.string_of_uint (Nat.to_uint n).

Definition of_Z (z : Z) : string :=
  NilZero.string_of_int (Z.to_int z).

(** An integer as a number; its text is its decimal form as long as it is
    below 10^21 in magnitude, which [Date.now()] always is. *)
Definition number (z : Z) : json := JNum (of_Z z).

Definition join (sep : string) (parts : list string) : string :=
  match parts with
  | [] => ""
  | p :: rest => fold_left (fun acc q => acc ++ sep ++ q) rest p
  end.

(** String coercion, as performed by a template literal. A parsed object
    has no callable member, so one with an own [toString] cannot be
    converted and raises a TypeError; an array joins the texts of its
    elements, null giving the empty text. *)
Fixpoint text_of_json (j : json) : result string :=
  match j with
  | JNull => Ok "null"
  | JBool true => Ok "true"
  | JBool false => Ok "false"
  | JNum repr => Ok repr
  | JStr s => Ok s
  | JArr items =>
      match
        (fix parts (l : list json) : result (list string) :=
           match l with
           | [] => Ok []
           | i :: rest =>
               match (match i with
                      | JNull => Ok ""
                      | _ => text_of_json i
                      end) with
               | Throw e => Throw e
               | Ok t =>
                   match parts rest with
                   | Throw e => Throw e
                   | Ok ts => Ok (t :: ts)
                   end
               end
           end) items
      with
      | Throw e => Throw e
      | Ok ts => Ok (join "," ts)
      end
  | JObj fs =>
      match lookup "toString" fs with
      | Some _ => Throw TypeError
      | None => Ok "[object Object]"
      end
  end.

Definition text (v : value) : result string :=
  match v with
  | None => Ok "undefined"
  | Some j => text_of_json j
  end.

(** Object spread [{...v}]: own enumerable properties. *)
Fixpoint indexed {A} (i : nat) (l : list A) : list (string * A) :=
  match l with
  | [] => []
  | x :: rest => (of_nat i, x) :: indexed (S i) rest
  end.

Fixpoint chars (s : string) : list json :=
  match s with
  | EmptyString => []
  | String c rest => JStr (String c "") :: chars rest
  end.

Definition spread (v : value) : list (string * json) :=
  match v with
  | Some (JObj fs) => fs
  | Some (JArr items) => indexed 0 items
  | Some (JStr s) => indexed 0 (chars s)
  | _ => []
  end.

(** [{...o, k: v}]: overwrite in place, or add at the end. *)
Fixpoint set (k : string) (v : json) (fs : list (string * json))
  : list (string * json) :=
  match fs with
  | [] => [(k, v)]
  | (k', v') :: rest =>
      if String.eqb k k' then (k, v) :: rest else (k', v') :: set k v rest
  end.

(** Structural equality of documents. *)
Fixpoint eqb (a b : json) {struct a} : bool :=
  match a, b with
  | JNull, JNull => true
  | JBool x, JBool y => Bool.eqb x y
  | JNum x, JNum y => String.eqb x y
  | JStr x, JStr y => String.eqb x y
  | JArr xs, JArr ys =>
      (fix all (xs ys : list json) : bool :=
         match xs, ys with
         | [], [] => true
         | x :: xs', y :: ys' => eqb x y && all xs' ys'
         | _, _ => false
         end) xs ys
  | JObj xs, JObj ys =>
      (fix all (xs ys : list (string * json)) : bool :=
         match xs, ys with
         | [], [] => true
         | (k, x) :: xs', (k', y) :: ys' =>
             String.eqb k k' && eqb x y && all xs' ys'
         | _, _ => false
         end) xs ys
  | _, _ => false
  end.

Definition value_eqb (a b : value) : bool :=
  match a, b with
  | None, None => true
  | Some x, Some y => eqb x y
  | _, _ => false
  end.

(** What [JSON.stringify] keeps of an array element: undefined becomes null. *)
Definition element (v : value) : json :=
  match v with
  | None => JNull
  | Some j => j
  end.

End Js.

(** ** Text encodings used when requests are built *)

Module Encoding.
Local Open Scope nat_scope.

Definition digit (alphabet : string) (n : nat) : ascii :=
  match String.get n alphabet with
  | Some c => c
  | None => "0"%char
  end.

Definition hex (n : nat) : ascii := digit "0123456789ABCDEF" n.

Definition sextet (n : nat) : ascii :=
  digit "ABCDEFGHIJKLMNOPQRSTUVWXYZabcdefghijklmnopqrstuvwxyz0123456789+/" n.

Definition between (lo hi n : nat) : bool := (lo <=? n) && (n <=? hi).

(** application/x-www-form-urlencoded byte serializer: alphanumerics and
    [*-._] are kept, a space becomes [+], all else is percent-encoded. *)
Definition form_octet (n : nat) : string :=
  if between 48 57 n || between 65 90 n || between 97 122 n
     || (n =? 42) || (n =? 45) || (n =? 46) || (n =? 95)
  then String (ascii_of_nat n) ""
  else if n =? 32 then "+"
  else String "%" (String (hex (n / 16)) (String (hex (n mod 16)) "")).

(** UTF-8 encoding of one code unit below 256. *)
Definition utf8 (c : ascii) : list nat :=
  let n := nat_of_ascii c in
  if n <? 128 then [n] else [192 + n / 64; 128 + n mod 64].

Definition form_byte (c : ascii) : string :=
  fold_right (fun n acc => form_octet n ++ acc) "" (utf8 c).

Fixpoint form_text (s : string) : string :=
  match s with
  | EmptyString => ""
  | String c rest => form_byte c ++ form_text rest
  end.

(** [URLSearchParams.prototype.toString]. *)
Definition form_urlencoded (ps : list (string * string)) : string :=
  Js.join "&" (map (fun p => form_text (fst p) ++ "=" ++ form_text (snd p)) ps).

Fixpoint bytes (s : string) : list nat :=
  match s with
  | EmptyString => []
  | String c rest => (utf8 c ++ bytes rest)%list
  end.

Fixpoint base64_bytes (bs : list nat) : string :=
  match bs with
  | [] => ""
  | [a] =>
      String (sextet (a / 4)) (String (sextet (a mod 4 * 16)) "==")
  | [a; b] =>
      String (sextet (a / 4))
        (String (sextet (a mod 4 * 16 + b / 16))
           (String (sextet (b mod 16 * 4)) "="))
  | a :: b :: c :: rest =>
      String (sextet (a / 4))
        (String (sextet (a mod 4 * 16 + b / 16))
           (String (sextet (b mod 16 * 4 + c / 64))
              (String (sextet (c mod 64)) (base64_bytes rest))))
  end.

(** [Buffer.from(s).toString("base64")], over the UTF-8 bytes of [s]. *)
Definition base64 (s : string) : string := base64_bytes (bytes s).

End Encoding.

(** ** The world around the connector *)

Import Js.

(** A configuration entry used where a string is expected. *)
Inductive setting :=
| Configured (s : string)
| Null
| Undefined.

Definition setting_text (v : setting) : string :=
  match v with
  | Configured s => s
  | Null => "null"
  | Undefined => "undefined"
  end.

(** Modelled from the spec: [XboxSettings] is declared in a sibling file;
    the spec gives it as [{ clientId, clientSecret }] sourced from external
    configuration, either of which may be absent. A present entry is a
    string, an absent one is null or undefined. *)
Record XboxSettings := {
  clientId : setting;
  clientSecret : setting
}.

Definition absent (v : setting) : Prop := v = Null \/ v = Undefined.

(** The inbound callback contract [{ state, code?, friend_sync? }]. *)
Record ConnectionCallbackSchema := {
  state : string;
  code : option string;
  friend_sync : option bool
}.

(** The text of [params.code!] where a string is expected. *)
Definition code_text (code : option string) : string :=
  match code with
  | Some s => s
  | None => "undefined"
  end.

(** The argument of [createConnection], which is also the stored record. *)
Record ConnectedAccount := {
  token_data : list (string * json);
  user_id : string;
  external_id : value;
  ca_friend_sync : option bool;
  name : value;
  type : string
}.

Inductive payload :=
| Form (params : list (string * string))
| Json (doc : json).

Record request := {
  url : string;
  method : string;
  headers : list (string * string);
  body : payload
}.

(** What [fetch] resolves to: the [ok] flag and the outcome of [res.json()],
    [None] when the body is not a JSON document. *)
Record response := {
  ok : bool;
  parsed : option json
}.

Inductive fetched :=
| Rejected
| Responded (r : response).

(** Everything the connector reads but does not own. *)
Record Env := {
  settings : XboxSettings;
  (** [Config.get().cdn.endpointPrivate] *)
  endpointPrivate : setting;
  (** the state codec of the [Connection] base class *)
  mint : string -> string;
  valid : string -> bool;
  owner : string -> result string;
  (** the remote services, as a function of the request sent *)
  remote : request -> fetched;
  (** [Date.now()] *)
  now : Z
}.

Definition Store := list ConnectedAccount.

(** Observable actions, in the order they happen. *)
Inductive event :=
| EvValidateState (st : string)
| EvFetch (req : request)
| EvConsoleError (prefix : string) (cause : exn)
| EvHasConnection (userId : string) (externalId : value)
| EvCreateConnection (data : ConnectedAccount).

(** ** Asynchronous computations

    A promise-returning function is a function of the store giving a
    settled result, the store afterwards and the actions performed. *)

Record Outcome (A : Type) := {
  res : result A;
  store : Store;
  events : list event
}.
Arguments res {A} o.
Arguments store {A} o.
Arguments events {A} o.

Definition M (A : Type) : Type := Store -> Outcome A.

Definition resolve {A} (a : A) : M A :=
  fun s => {| res := Ok a; store := s; events := [] |}.

Definition throw {A} (e : exn) : M A :=
  fun s => {| res := Throw e; store := s; events := [] |}.

Definition settle {A} (r : result A) : M A :=
  fun s => {| res := r; store := s; events := [] |}.

Definition emit (ev : event) : M unit :=
  fun s => {| res := Ok tt; store := s; events := [ev] |}.

(** [await p; k] and [p.then(k)]. *)
Definition bind {A B} (p : M A) (k : A -> M B) : M B :=
  fun s =>
    let o := p s in
    match res o with
    | Ok a =>
        let o' := k a (store o) in
        {| res := res o'; store := store o'; events := events o ++ events o' |}
    | Throw e => {| res := Throw e; store := store o; events := events o |}
    end.

(** [p.catch(h)]. *)
Definition catch {A} (p : M A) (h : exn -> M A) : M A :=
  fun s =>
    let o := p s in
    match res o with
    | Ok a => o
    | Throw e =>
        let o' := h e (store o) in
        {| res := res o'; store := store o'; events := events o ++ events o' |}
    end.

Notation "x <- p ;; k" := (bind p (fun x => k))
  (at level 61, p at next level, right associativity).
Notation "p ;; k" := (bind p (fun _ => k))
  (at level 61, right associativity).

(** [res.json()] *)
Definition json_of (r : response) : M value :=
  match parsed r with
  | Some doc => resolve (Some doc)
  | None => throw SyntaxError
  end.

Definition console_error (prefix : string) (cause : exn) : M unit :=
  emit (EvConsoleError prefix cause).

(** ** [URL] and its search parameters *)

Record URL := {
  href : string;
  searchParams : list (string * string)
}.

Definition new_URL (s : string) : URL :=
  {| href := s; searchParams := [] |}.

Definition append (u : URL) (k : string) (v : string) : URL :=
  {| href := href u; searchParams := searchParams u ++ [(k, v)] |}.

Definition URL_toString (u : URL) : string :=
  match searchParams u with
  | [] => href u
  | ps => href u ++ "?" ++ Encoding.form_urlencoded ps
  end.

(** The text of [a || d] with a string default: null, undefined and the
    empty string give way to the default. *)
Definition or_else (a : setting) (d : string) : string :=
  match a with
  | Configured s => if String.eqb s "" then d else s
  | Null | Undefined => d
  end.

Fixpoint param (k : string) (ps : list (string * string)) : option string :=
  match ps with
  | [] => None
  | (k', v) :: rest => if String.eqb k k' then Some v else param k rest
  end.

(** ** The [Connection] base class *)

Section Connection.

Variable env : Env.

(** Modelled from the spec: [Connection.createState] lives in the base
    class, outside this file; it produces an opaque string embedding the
    host user id, with no side effect. *)
Definition createState (userId : string) : string := mint env userId.

(** Modelled from the spec: [Connection.validateState] lives in the base
    class; it fails with the invalid-state error when the token is
    malformed, fails its integrity check or has expired, and returns
    nothing otherwise. *)
Definition validateState (st : string) : M unit :=
  emit (EvValidateState st) ;;
  if valid env st then resolve tt else throw (Discord INVALID_OAUTH_STATE).

(** Modelled from the spec: [Connection.getUserId] lives in the base class;
    it extracts the embedded identifier, and what it does on a token that
    does not validate is left open, here to the codec. *)
Definition getUserId (st : string) : M string := settle (owner env st).

(** Modelled from the spec: [Connection.hasConnection] lives in the base
    class; it queries the stored connections for the pair
    (host user id, external id). *)
(** Modelled from the spec: the query behind [Connection.hasConnection],
    which lives in the base class: is a record stored for the pair
    (host user id, external id)? *)
Definition known (s : Store) (userId : string) (externalId : value) : bool :=
  existsb (fun r => String.eqb (user_id r) userId
                    && value_eqb (external_id r) externalId) s.

Definition hasConnection (userId : string) (externalId : value) : M bool :=
  fun s =>
    {| res := Ok (known s userId externalId);
       store := s;
       events := [EvHasConnection userId externalId] |}.

(** Modelled from the spec: [Connection.createConnection] lives in the base
    class; it persists a new record and returns it. *)
Definition createConnection (data : ConnectedAccount) : M ConnectedAccount :=
  fun s =>
    {| res := Ok data;
       store := (s ++ [data])%list;
       events := [EvCreateConnection data] |}.

(** [fetch(url, init)] of node-fetch. *)
Definition fetch (req : request) : M response :=
  emit (EvFetch req) ;;
  match remote env req with
  | Rejected => throw FetchError
  | Responded r => resolve r
  end.

(** ** [XboxConnection] *)

Definition id : string := "xbox".
Definition authorizeUrl : string := "https://login.live.com/oauth20_authorize.srf".
Definition tokenUrl : string := "https://login.live.com/oauth20_token.srf".
Definition userInfoUrl : string := "https://xsts.auth.xboxlive.com/xsts/authorize".
Definition userAuthUrl : string := "https://user.auth.xboxlive.com/user/authenticate".
Definition scopes : list string := ["Xboxlive.signin"; "Xboxlive.offline_access"].

(** The local [url] of [getAuthorizationUrl] once all parameters are appended. *)
Definition authorizationUrl (userId : string) : URL :=
  let state := createState userId in
  let url := new_URL authorizeUrl in
  let url := append url "client_id" (setting_text (clientId (settings env))) in
  let url := append url "redirect_uri"
    (or_else (endpointPrivate env) "http://localhost:3001"
     ++ "/connections/" ++ id ++ "/callback") in
  let url := append url "response_type" "code" in
  let url := append url "scope" (join " " scopes) in
  let url := append url "state" state in
  let url := append url "approval_prompt" "auto" in
  url.

Definition getAuthorizationUrl (userId : string) : string :=
  URL_toString (authorizationUrl userId).

Definition getTokenUrl : string := tokenUrl.

(** The request literal of [getUserToken], given the text of the token. *)
Definition userTokenRequest (token : string) : request :=
  {| url := userAuthUrl;
     method := "POST";
     headers := [("x-xbl-contract-version", "3");
                 ("Content-Type", "application/json");
                 ("Accept", "application/json")];
     body := Json (JObj
       [("RelyingParty", JStr "http://auth.xboxlive.com");
        ("TokenType", JStr "JWT");
        ("Properties", JObj
           [("AuthMethod", JStr "RPS");
            ("SiteName", JStr "user.auth.xboxlive.com");
            ("RpsTicket", JStr ("d=" ++ token))])]) |}.

(** The template literal [`d=${token}`] is evaluated while the argument of
    [fetch] is built, before the call and outside the [.catch]. *)
Definition getUserToken (token : value) : M value :=
  token <- settle (text token) ;;
  catch
    (res <- (res <- fetch (userTokenRequest token) ;;
             if negb (ok res)
             then throw (ApiError "Failed to get user token" 0 400)
             else json_of res) ;;
     settle (get res "Token"))
    (fun e =>
       console_error ("Error getting user token for " ++ id ++ " connection: ") e ;;
       throw (Discord INVALID_OAUTH_TOKEN)).

(** The request literal of [exchangeCode]. *)
Definition tokenRequest (url : string) (code : option string) : request :=
  {| url := url;
     method := "POST";
     headers :=
       [("Accept", "application/json");
        ("Content-Type", "application/x-www-form-urlencoded");
        ("Authorization",
         "Basic " ++ Encoding.base64
           (setting_text (clientId (settings env)) ++ ":"
            ++ setting_text (clientSecret (settings env))))];
     body := Form
       [("grant_type", "authorization_code");
        ("code", code_text code);
        ("client_id", setting_text (clientId (settings env)));
        ("redirect_uri",
         or_else (endpointPrivate env) "http://localhost:3001"
         ++ "/connections/" ++ id ++ "/callback");
        ("scope", join " " scopes)] |}.

Definition exchangeCode (state : string) (code : option string) : M value :=
  validateState state ;;
  let url := getTokenUrl in
  catch
    (res <- (res <- fetch (tokenRequest url code) ;;
             if negb (ok res)
             then throw (ApiError "Failed to exchange code" 0 400)
             else json_of res) ;;
     error <- settle (get res "error") ;;
     if truthy error
     then description <- settle (get res "error_description") ;;
          throw (JsError description)
     else resolve res)
    (fun e =>
       console_error ("Error exchanging code for " ++ id ++ " connection: ") e ;;
       throw (Discord GENERAL_ERROR)).

(** The request literal of [getUser]. *)
Definition userRequest (token : value) : request :=
  {| url := URL_toString (new_URL userInfoUrl);
     method := "POST";
     headers := [("x-xbl-contract-version", "3");
                 ("Content-Type", "application/json");
                 ("Accept", "application/json")];
     body := Json (JObj
       [("RelyingParty", JStr "http://xboxlive.com");
        ("TokenType", JStr "JWT");
        ("Properties", JObj
           [("UserTokens", JArr [element token]);
            ("SandboxId", JStr "RETAIL")])]) |}.

Definition getUser (token : value) : M value :=
  catch
    (res <- (res <- fetch (userRequest token) ;;
             if negb (ok res)
             then throw (ApiError "Failed to fetch user" 0 400)
             else json_of res) ;;
     error <- settle (get res "error") ;;
     if truthy error
     then description <- settle (get res "error_description") ;;
          throw (JsError description)
     else resolve res)
    (fun e =>
       console_error ("Error fetching user for " ++ id ++ " connection: ") e ;;
       throw (Discord GENERAL_ERROR)).

(** [userInfo.DisplayClaims.xui[0]] followed by a member access. *)
Definition first_claim (userInfo : value) (k : string) : result value :=
  match get userInfo "DisplayClaims" with
  | Throw e => Throw e
  | Ok claims =>
      match get claims "xui" with
      | Throw e => Throw e
      | Ok xui =>
          match first xui with
          | Throw e => Throw e
          | Ok entry => get entry k
          end
      end
  end.

Definition handleCallback (params : ConnectionCallbackSchema)
  : M (option ConnectedAccount) :=
  userId <- getUserId (state params) ;;
  tokenData <- exchangeCode (state params) (code params) ;;
  access_token <- settle (get tokenData "access_token") ;;
  userToken <- getUserToken access_token ;;
  userInfo <- getUser userToken ;;
  xid <- settle (first_claim userInfo "xid") ;;
  exists_ <- hasConnection userId xid ;;
  if (exists_ : bool) then resolve None
  else
    let fetched_at := now env in
    external_id <- settle (first_claim userInfo "xid") ;;
    name <- settle (first_claim userInfo "gtg") ;;
    created <- createConnection
      {| token_data := set "fetched_at" (number fetched_at) (spread tokenData);
         user_id := userId;
         external_id := external_id;
         ca_friend_sync := friend_sync params;
         name := name;
         type := id |} ;;
    resolve (Some created).

End Connection.

Open Scope list_scope.
(** ** Reading serialized text back *)

Definition hex_value (c : ascii) : nat :=
  let n := nat_of_ascii c in
  if Encoding.between 48 57 n then (n - 48)%nat
  else if Encoding.between 65 70 n then (n - 55)%nat
  else 0%nat.

(** Decodes the first code unit of a form-urlencoded text. *)
Definition form_decode_unit (s : string) : option (ascii * string) :=
  match s with
  | EmptyString => None
  | String "+" rest => Some (" "%char, rest)
  | String "%" (String h (String l rest)) =>
      let b := (16 * hex_value h + hex_value l)%nat in
      if (b <? 128)%nat then Some (ascii_of_nat b, rest)
      else
        match rest with
        | String "%" (String h' (String l' rest')) =>
            Some (ascii_of_nat ((b - 192) * 64
                                + (16 * hex_value h' + hex_value l' - 128)),
                  rest')
        | _ => None
        end
  | String "%" _ => None
  | String c rest => Some (c, rest)
  end.

(** ** Induction on documents *)

Section JsonInduction.

Variable P : json -> Prop.
Hypothesis Hnull : P JNull.
Hypothesis Hbool : forall b, P (JBool b).
Hypothesis Hnum : forall repr, P (JNum repr).
Hypothesis Hstr : forall s, P (JStr s).
Hypothesis Harr : forall items, Forall P items -> P (JArr items).
Hypothesis Hobj : forall fields, Forall (fun f => P (snd f)) fields -> P (JObj fields).

Fixpoint json_induction (j : json) : P j :=
  match j with
  | JNull => Hnull
  | JBool b => Hbool b
  | JNum repr => Hnum repr
  | JStr s => Hstr s
  | JArr items =>
      Harr items
        ((fix all (l : list json) : Forall P l :=
            match l with
            | [] => Forall_nil P
            | x :: rest => Forall_cons x (json_induction x) (all rest)
            end) items)
  | JObj fields =>
      Hobj fields
        ((fix all (l : list (string * json)) : Forall (fun f => P (snd f)) l :=
            match l with
            | [] => Forall_nil _
            | f :: rest => Forall_cons f (json_induction (snd f)) (all rest)
            end) fields)
  end.

End JsonInduction.

(** ** Reading a run *)

Definition is_fetch_to (u : string) (ev : event) : bool :=
  match ev with
  | EvFetch req => String.eqb (url req) u
  | _ => false
  end.

(** Number of HTTP calls made to endpoint [u]. *)
Definition calls (u : string) (evs : list event) : nat :=
  length (filter (is_fetch_to u) evs).

(** The requests sent, in order. *)
Fixpoint fetches (evs : list event) : list request :=
  match evs with
  | [] => []
  | EvFetch req :: rest => req :: fetches rest
  | _ :: rest => fetches rest
  end.

(** The records handed to [createConnection], in order. *)
Fixpoint writes (evs : list event) : list ConnectedAccount :=
  match evs with
  | [] => []
  | EvCreateConnection data :: rest => data :: writes rest
  | _ :: rest => writes rest
  end.

(** The existence checks made, in order. *)
Fixpoint checks (evs : list event) : list (string * value) :=
  match evs with
  | [] => []
  | EvHasConnection u x :: rest => (u, x) :: checks rest
  | _ :: rest => checks rest
  end.

(** The three network stages of a callback all return, with these values. *)
Definition chain_succeeds (env : Env) (p : ConnectionCallbackSchema) (s : Store)
    (userId : string) (tokenData userToken userInfo : value) : Prop :=
  res (getUserId env (state p) s) = Ok userId /\
  res (exchangeCode env (state p) (code p) s) = Ok tokenData /\
  (exists access_token,
      get tokenData "access_token" = Ok access_token /\
      res (getUserToken env access_token s) = Ok userToken) /\
  res (getUser env userToken s) = Ok userInfo.

(** One of the three network stages of a callback fails with [e]. *)
Definition stage_fails (env : Env) (p : ConnectionCallbackSchema) (s : Store)
    (e : exn) : Prop :=
  exists userId,
    res (getUserId env (state p) s) = Ok userId /\
    (res (exchangeCode env (state p) (code p) s) = Throw e \/
     exists tokenData access_token,
       res (exchangeCode env (state p) (code p) s) = Ok tokenData /\
       get tokenData "access_token" = Ok access_token /\
       (res (getUserToken env access_token s) = Throw e \/
        exists userToken,
          res (getUserToken env access_token s) = Ok userToken /\
          res (getUser env userToken s) = Throw e)).

(** A reply that [getUserToken] cannot read: the transport failed, the
    status is not a success, or the body is not a JSON document or is the
    document [null]. *)
Definition unreadable (f : fetched) : Prop :=
  f = Rejected \/
  exists r, f = Responded r /\
            (ok r = false \/ parsed r = None \/ parsed r = Some JNull).

(** The record [handleCallback] hands to [createConnection]. *)
Definition record_of (env : Env) (p : ConnectionCallbackSchema)
    (userId : string) (tokenData xid gtg : value) : ConnectedAccount :=
  {| token_data := set "fetched_at" (number (now env)) (spread tokenData);
     user_id := userId;
     external_id := xid;
     ca_friend_sync := friend_sync p;
     name := gtg;
     type := id |}.

(** A run that ends in [throw e]. *)
Definition stop {A} (e : exn) (s : Store) (evs : list event) : Outcome A :=
  {| res := Throw e; store := s; events := evs |}.

(** A run preceded by the actions [evs]. *)
Definition after {A} (evs : list event) (o : Outcome A) : Outcome A :=
  {| res := res o; store := store o; events := evs ++ events o |}.

(** ** Scenarios *)

Definition replied (doc : json) : fetched :=
  Responded {| ok := true; parsed := Some doc |}.

Definition refused : fetched :=
  Responded {| ok := false; parsed := None |}.

(** Remote services answering each of the three endpoints with a fixed reply. *)
Definition replies (a b c : fetched) (req : request) : fetched :=
  if String.eqb (url req) tokenUrl then a
  else if String.eqb (url req) userAuthUrl then b
  else c.

Definition configured : XboxSettings :=
  {| clientId := Configured "id"; clientSecret := Configured "secret" |}.

Definition unconfigured : XboxSettings :=
  {| clientId := Null; clientSecret := Null |}.

(** A world whose only valid state token is ["state-u1"], for user ["u1"]. *)
Definition world (cfg : XboxSettings) (a b c : fetched) : Env :=
  {| settings := cfg;
     endpointPrivate := Undefined;
     mint := fun userId => ("state-" ++ userId)%string;
     valid := fun st => String.eqb st "state-u1";
     owner := fun st => if String.eqb st "state-u1" then Ok "u1"
                        else Throw (Discord INVALID_OAUTH_STATE);
     remote := replies a b c;
     now := 1700000000000 |}.

Definition token_reply : json := JObj [("access_token", JStr "AT1")].
Definition session_reply : json := JObj [("Token", JStr "ST1")].
Definition claims_reply : json :=
  JObj [("DisplayClaims",
         JObj [("xui", JArr [JObj [("xid", JStr "X1"); ("gtg", JStr "Gamer1")]])])].

(** The end-to-end scenario: code ["abc123"], user ["u1"], AT1, ST1, X1. *)
Definition happy : Env :=
  world configured (replied token_reply) (replied session_reply) (replied claims_reply).

Definition callback : ConnectionCallbackSchema :=
  {| state := "state-u1"; code := Some "abc123"; friend_sync := Some true |}.

Definition linked : ConnectedAccount :=
  {| token_data := [("access_token", JStr "AT1"); ("fetched_at", JNum "1700000000000")];
     user_id := "u1";
     external_id := Some (JStr "X1");
     ca_friend_sync := Some true;
     name := Some (JStr "Gamer1");
     type := "xbox" |}.

(** Every endpoint answers with a non-success status. *)
Definition outage : Env := world configured refused refused refused.

(** The token endpoint alone refuses. *)
Definition exchange_down : Env :=
  world configured refused (replied session_reply) (replied claims_reply).

(** The session-token endpoint alone refuses. *)
Definition session_down : Env :=
  world configured (replied token_reply) refused (replied claims_reply).

(** The session-token endpoint answers with a JSON object without [Token]. *)
Definition token_less : Env :=
  world configured (replied token_reply) (replied (JObj [])) (replied claims_reply).

(** The identity endpoint answers with an empty claims array. *)
Definition no_claims : Env :=
  world configured (replied token_reply) (replied session_reply)
    (replied (JObj [("DisplayClaims", JObj [("xui", JArr [])])])).

(** No client id or secret is configured. *)
Definition misconfigured : Env :=
  world unconfigured (replied token_reply) (replied session_reply) (replied claims_reply).

(** The token endpoint answers with an [access_token] that is an object
    with a member [toString], which no template literal can print. *)
Definition unprintable_token : json := JObj [("toString", JNum "1")].

Definition unprintable : Env :=
  world configured (replied (JObj [("access_token", unprintable_token)]))
    (replied session_reply) (replied claims_reply).

Definition empty_callback : ConnectionCallbackSchema :=
  {| state := "state-u1"; code := Some ""; friend_sync := Some true |}.




Definition forged_callback : ConnectionCallbackSchema :=
  {| state := "forged"; code := Some "abc123"; friend_sync := None |}.

(** ** Further observations on runs *)

(** The [console.error] calls made, in order. *)
Fixpoint logs (evs : list event) : list (string * exn) :=
  match evs with
  | [] => []
  | EvConsoleError prefix cause :: rest => (prefix, cause) :: logs rest
  | _ :: rest => logs rest
  end.

Definition failed {A} (r : result A) : bool :=
  match r with
  | Ok _ => false
  | Throw _ => true
  end.

(** The records stored for the pair (host user id, external id). *)
Definition stored_for (s : Store) (userId : string) (externalId : value)
  : list ConnectedAccount :=
  filter (fun r => String.eqb (user_id r) userId
                   && value_eqb (external_id r) externalId) s.

(** At most one record per pair (host user id, external id). *)
Definition unique (s : Store) : Prop :=
  forall userId externalId,
    (length (stored_for s userId externalId) <= 1)%nat.

(** Number of occurrences of a character in a string. *)
Fixpoint occurrences (c : ascii) (s : string) : nat :=
  match s with
  | EmptyString => 0%nat
  | String c' rest =>
      ((if Ascii.eqb c c' then 1 else 0) + occurrences c rest)%nat
  end.

(** ** Elementary facts about runs *)

Example base64_sample : Encoding.base64 "id:secret" = "aWQ6c2VjcmV0".
Proof. reflexivity. Qed.

Example form_sample :
  Encoding.form_urlencoded
    [("scope", "Xboxlive.signin Xboxlive.offline_access");
     ("redirect_uri", "http://localhost:3001/connections/xbox/callback")]
  = "scope=Xboxlive.signin+Xboxlive.offline_access&redirect_uri=http%3A%2F%2Flocalhost%3A3001%2Fconnections%2Fxbox%2Fcallback".
Proof. reflexivity. Qed.

Lemma calls_app u a b : calls u (a ++ b) = (calls u a + calls u b)%nat.
Proof. unfold calls. rewrite filter_app, length_app. reflexivity. Qed.

Lemma fetches_app a b : fetches (a ++ b) = fetches a ++ fetches b.
Proof.
  induction a as [|ev a IH]; simpl; [reflexivity|].
  destruct ev; simpl; rewrite IH; reflexivity.
Qed.

Lemma writes_app a b : writes (a ++ b) = writes a ++ writes b.
Proof.
  induction a as [|ev a IH]; simpl; [reflexivity|].
  destruct ev; simpl; rewrite IH; reflexivity.
Qed.

Lemma checks_app a b : checks (a ++ b) = checks a ++ checks b.
Proof.
  induction a as [|ev a IH]; simpl; [reflexivity|].
  destruct ev; simpl; rewrite IH; reflexivity.
Qed.

Lemma calls_fetches u evs :
  calls u evs = length (filter (fun r => String.eqb (url r) u) (fetches evs)).
Proof.
  unfold calls. induction evs as [|ev evs IH]; simpl; [reflexivity|].
  destruct ev; simpl; try exact IH.
  destruct (String.eqb (url req) u); simpl; rewrite IH; reflexivity.
Qed.

(** *** Running [await] step by step *)

Lemma bind_settle {A B} (r : result A) (k : A -> M B) s :
  bind (settle r) k s =
  match r with
  | Ok a => k a s
  | Throw e => stop e s []
  end.
Proof.
  unfold bind, settle, stop. cbn [res store events app].
  destruct r; [destruct (k a s)|]; reflexivity.
Qed.

Lemma bind_ok {A B} (p : M A) (k : A -> M B) s a :
  res (p s) = Ok a ->
  bind p k s = after (events (p s)) (k a (store (p s))).
Proof. intro H. unfold bind, after. rewrite H. reflexivity. Qed.

Lemma bind_throw {A B} (p : M A) (k : A -> M B) s e :
  res (p s) = Throw e ->
  bind p k s = stop e (store (p s)) (events (p s)).
Proof. intro H. unfold bind, stop. rewrite H. reflexivity. Qed.

Lemma bind_hasConnection {B} userId xid (k : bool -> M B) s :
  bind (hasConnection userId xid) k s =
  after [EvHasConnection userId xid] (k (known s userId xid) s).
Proof. reflexivity. Qed.

Lemma bind_createConnection {B} data (k : ConnectedAccount -> M B) s :
  bind (createConnection data) k s =
  after [EvCreateConnection data] (k data (s ++ [data])).
Proof. reflexivity. Qed.

(** *** String coercion fails with a TypeError only *)

Lemma text_of_json_throws j : forall e, text_of_json j = Throw e -> e = TypeError.
Proof.
  induction j as [| b | repr | t | items IH | fields _] using json_induction;
    intro e; cbn [text_of_json]; try discriminate.
  - destruct b; discriminate.
  - match goal with
    | |- match ?p with _ => _ end = _ -> _ =>
        assert (Hparts : forall e', p = Throw e' -> e' = TypeError)
    end.
    { induction IH as [|i rest Hi _ IHrest]; intro e'; [discriminate|].
      match goal with
      | |- match ?head with _ => _ end = _ -> _ =>
          destruct head as [t|e0] eqn:Hhead
      end.
      - match goal with
        | |- match ?tail with _ => _ end = _ -> _ =>
            destruct tail as [ts|e1]; [discriminate|]
        end.
        intro H; injection H as <-. apply IHrest. reflexivity.
      - intro H; injection H as <-.
        destruct i; try discriminate Hhead; exact (Hi _ Hhead). }
    match goal with
    | |- match ?p with _ => _ end = _ -> _ =>
        destruct p as [ts|e']; [discriminate|]
    end.
    intro H; injection H as <-. apply Hparts. reflexivity.
  - destruct (lookup "toString" fields); [|discriminate].
    intro H; injection H as <-. reflexivity.
Qed.

Lemma text_throws v e : text v = Throw e -> e = TypeError.
Proof. destruct v as [j|]; [apply text_of_json_throws | discriminate]. Qed.

Ltac open_stage :=
  unfold exchangeCode, getUser, getTokenUrl, validateState, fetch.

(** Opens [getUserToken] on the outcome of the coercion of its token. *)
Ltac open_session token :=
  unfold getUserToken; rewrite bind_settle;
  destruct (text token) as [?ticket|?e] eqn:?Htext;
  [unfold fetch;
   match goal with
   | |- context [userTokenRequest ?t] =>
       generalize (userTokenRequest t); intro req
   end
  |unfold stop].

Ltac run_ops :=
  cbv [bind catch emit json_of console_error settle throw resolve
       res store events ok parsed app negb get].

Ltac split_run :=
  repeat match goal with
         | |- context [valid ?e ?st] => destruct (valid e st) eqn:?
         | |- context [remote ?e ?r] =>
             destruct (remote e r) as [|[[] [[]|]]] eqn:?
         end;
  run_ops;
  repeat match goal with
         | |- context [truthy ?v] => destruct (truthy v) eqn:?
         end;
  cbn [fetches writes checks logs failed].

Section Stages.

Variable env : Env.

(** *** Stage B *)

Lemma getUserToken_store token s : store (getUserToken env token s) = s.
Proof. open_session token; split_run; reflexivity. Qed.

Lemma getUserToken_fetches token s :
  fetches (events (getUserToken env token s)) =
  match text token with
  | Ok ticket => [userTokenRequest ticket]
  | Throw _ => []
  end.
Proof. open_session token; split_run; reflexivity. Qed.

Lemma getUserToken_quiet token s :
  writes (events (getUserToken env token s)) = [] /\
  checks (events (getUserToken env token s)) = [].
Proof. open_session token; split_run; split; reflexivity. Qed.

Lemma getUserToken_throws token s e :
  res (getUserToken env token s) = Throw e ->
  ((exists ticket, text token = Ok ticket) /\ e = Discord INVALID_OAUTH_TOKEN) \/
  (text token = Throw TypeError /\ e = TypeError).
Proof.
  open_session token.
  - split_run; intro H; inversion H; try discriminate; left; eauto.
  - cbn [res]. intro H. injection H as <-.
    pose proof (text_throws _ _ Htext) as ->. right. auto.
Qed.

Lemma getUserToken_coercible token s v :
  res (getUserToken env token s) = Ok v -> exists ticket, text token = Ok ticket.
Proof.
  open_session token; [eauto | cbn [res]; discriminate].
Qed.

Lemma getUserToken_unreadable token ticket s :
  text token = Ok ticket ->
  unreadable (remote env (userTokenRequest ticket)) ->
  res (getUserToken env token s) = Throw (Discord INVALID_OAUTH_TOKEN).
Proof.
  intros Ht [H | (r & H & Hr)]; unfold getUserToken; rewrite bind_settle, Ht;
    unfold fetch; rewrite H.
  - reflexivity.
  - destruct r as [okr doc]. cbn [ok parsed] in Hr.
    destruct Hr as [Hr | [Hr | Hr]]; subst;
      [ | destruct okr | destruct okr]; reflexivity.
Qed.

(** *** Stage A *)

Lemma exchangeCode_store st c s : store (exchangeCode env st c s) = s.
Proof.
  open_stage. generalize (tokenRequest env tokenUrl c); intro req.
  split_run; reflexivity.
Qed.

Lemma exchangeCode_fetches st c s :
  fetches (events (exchangeCode env st c s)) =
  if valid env st then [tokenRequest env tokenUrl c] else [].
Proof.
  open_stage. generalize (tokenRequest env tokenUrl c); intro req.
  split_run; reflexivity.
Qed.

Lemma exchangeCode_quiet st c s :
  writes (events (exchangeCode env st c s)) = [] /\
  checks (events (exchangeCode env st c s)) = [].
Proof.
  open_stage. generalize (tokenRequest env tokenUrl c); intro req.
  split_run; split; reflexivity.
Qed.

Lemma exchangeCode_starts st c s :
  exists tail, events (exchangeCode env st c s) = EvValidateState st :: tail.
Proof.
  open_stage. generalize (tokenRequest env tokenUrl c); intro req.
  split_run; eexists; reflexivity.
Qed.

Lemma exchangeCode_invalid st c s :
  valid env st = false ->
  exchangeCode env st c s =
  {| res := Throw (Discord INVALID_OAUTH_STATE);
     store := s;
     events := [EvValidateState st] |}.
Proof. intro H. open_stage. rewrite H. reflexivity. Qed.

Lemma exchangeCode_throws st c s e :
  res (exchangeCode env st c s) = Throw e ->
  (valid env st = false /\ e = Discord INVALID_OAUTH_STATE) \/
  (valid env st = true /\ e = Discord GENERAL_ERROR).
Proof.
  open_stage. generalize (tokenRequest env tokenUrl c); intro req.
  split_run; intro H; inversion H; try discriminate; auto.
Qed.

Lemma exchangeCode_defined st c s tokenData :
  res (exchangeCode env st c s) = Ok tokenData ->
  exists doc, tokenData = Some doc /\ doc <> JNull.
Proof.
  open_stage. generalize (tokenRequest env tokenUrl c); intro req.
  split_run; intro H; inversion H; try discriminate;
    eexists; (split; [reflexivity | discriminate]).
Qed.

(** *** Stage C *)

Lemma getUser_store token s : store (getUser env token s) = s.
Proof.
  open_stage. generalize (userRequest token); intro req.
  split_run; reflexivity.
Qed.

Lemma getUser_fetches token s :
  fetches (events (getUser env token s)) = [userRequest token].
Proof.
  open_stage. generalize (userRequest token); intro req.
  split_run; reflexivity.
Qed.

Lemma getUser_quiet token s :
  writes (events (getUser env token s)) = [] /\
  checks (events (getUser env token s)) = [].
Proof.
  open_stage. generalize (userRequest token); intro req.
  split_run; split; reflexivity.
Qed.

Lemma getUser_throws token s e :
  res (getUser env token s) = Throw e -> e = Discord GENERAL_ERROR.
Proof.
  open_stage. generalize (userRequest token); intro req.
  split_run; intro H; inversion H; try reflexivity; try discriminate.
Qed.

(** *** The callback, with the store threaded explicitly *)

Lemma get_defined (v : value) k :
  (exists doc, v = Some doc /\ doc <> JNull) -> exists w, get v k = Ok w.
Proof.
  intros (doc & -> & Hd). destruct doc; simpl; eauto. congruence.
Qed.

Lemma handleCallback_run p s :
  handleCallback env p s =
  match owner env (state p) with
  | Throw e => stop e s []
  | Ok userId =>
  let a := exchangeCode env (state p) (code p) s in
  match res a with
  | Throw e => stop e s (events a)
  | Ok tokenData =>
  match get tokenData "access_token" with
  | Throw e => stop e s (events a)
  | Ok access_token =>
  let b := getUserToken env access_token s in
  match res b with
  | Throw e => stop e s (events a ++ events b)
  | Ok userToken =>
  let c := getUser env userToken s in
  match res c with
  | Throw e => stop e s (events a ++ events b ++ events c)
  | Ok userInfo =>
  match first_claim userInfo "xid" with
  | Throw e => stop e s (events a ++ events b ++ events c)
  | Ok xid =>
  let seen := events a ++ events b ++ events c ++ [EvHasConnection userId xid] in
  if known s userId xid
  then {| res := Ok None; store := s; events := seen |}
  else
  match first_claim userInfo "gtg" with
  | Throw e => stop e s seen
  | Ok gtg =>
      let data := record_of env p userId tokenData xid gtg in
      {| res := Ok (Some data);
         store := s ++ [data];
         events := seen ++ [EvCreateConnection data] |}
  end end end end end end end.
Proof.
  unfold handleCallback, getUserId.
  rewrite bind_settle.
  destruct (owner env (state p)) as [userId|e]; [|reflexivity].
  cbv zeta.
  destruct (res (exchangeCode env (state p) (code p) s)) as [tokenData|e] eqn:Ha;
    [rewrite (bind_ok _ _ _ _ Ha) | rewrite (bind_throw _ _ _ _ Ha)];
    rewrite exchangeCode_store; [|reflexivity].
  rewrite bind_settle.
  destruct (get tokenData "access_token") as [access_token|e];
    [|unfold after, stop; cbn [res store events]; rewrite app_nil_r; reflexivity].
  destruct (res (getUserToken env access_token s)) as [userToken|e] eqn:Hb;
    [rewrite (bind_ok _ _ _ _ Hb) | rewrite (bind_throw _ _ _ _ Hb)];
    rewrite getUserToken_store; [|reflexivity].
  destruct (res (getUser env userToken s)) as [userInfo|e] eqn:Hc;
    [rewrite (bind_ok _ _ _ _ Hc) | rewrite (bind_throw _ _ _ _ Hc)];
    rewrite getUser_store; [|unfold after, stop; cbn [res store events];
                             rewrite <- ?app_assoc; reflexivity].
  rewrite bind_settle.
  destruct (first_claim userInfo "xid") as [xid|e];
    [|unfold after, stop; cbn [res store events]; rewrite app_nil_r; reflexivity].
  rewrite bind_hasConnection.
  destruct (known s userId xid).
  { unfold after, resolve. cbn [res store events app]. reflexivity. }
  rewrite bind_settle.
  rewrite bind_settle.
  destruct (first_claim userInfo "gtg") as [gtg|e];
    [|unfold after, stop; cbn [res store events app]; reflexivity].
  rewrite bind_createConnection.
  unfold after, resolve, record_of. cbn [res store events app].
  rewrite <- ?app_assoc. reflexivity.
Qed.

End Stages.

(** ** Documents: equality and object update *)

Lemma json_eqb_refl : forall a, Js.eqb a a = true.
Proof.
  fix IH 1. intros [| b | z | t | items | fields]; simpl.
  - reflexivity.
  - apply Bool.eqb_reflx.
  - apply String.eqb_refl.
  - apply String.eqb_refl.
  - revert items. fix IHitems 1. intros [|x xs]; [reflexivity|].
    rewrite (IH x), (IHitems xs). reflexivity.
  - revert fields. fix IHfields 1. intros [|[k x] xs]; [reflexivity|].
    rewrite String.eqb_refl, (IH x), (IHfields xs). reflexivity.
Qed.

Lemma json_eqb_sound : forall a b, Js.eqb a b = true -> a = b.
Proof.
  fix IH 1. intros [| x | x | x | xs | xs] [| y | y | y | ys | ys];
    simpl; try discriminate; intro H.
  - reflexivity.
  - apply Bool.eqb_prop in H. congruence.
  - apply String.eqb_eq in H. congruence.
  - apply String.eqb_eq in H. congruence.
  - f_equal. revert xs ys H. fix IHitems 1.
    intros [|x xs] [|y ys]; try discriminate; [reflexivity|]. intro H.
    apply andb_prop in H as [H1 H2].
    rewrite (IH x y H1), (IHitems xs ys H2). reflexivity.
  - f_equal. revert xs ys H. fix IHfields 1.
    intros [|[k x] xs] [|[k' y] ys]; try discriminate; [reflexivity|]. intro H.
    apply andb_prop in H as [H H3]. apply andb_prop in H as [H1 H2].
    apply String.eqb_eq in H1.
    rewrite H1, (IH x y H2), (IHfields xs ys H3). reflexivity.
Qed.

Lemma value_eqb_eq a b : value_eqb a b = true <-> a = b.
Proof.
  destruct a as [a|], b as [b|]; simpl; split; intro H;
    try discriminate; try reflexivity.
  - f_equal. apply json_eqb_sound, H.
  - inversion H. apply json_eqb_refl.
Qed.

(** The existence check finds exactly the records stored for the pair. *)
Lemma known_spec s userId xid :
  known s userId xid = true <->
  exists r, In r s /\ user_id r = userId /\ external_id r = xid.
Proof.
  unfold known. rewrite existsb_exists. split.
  - intros (r & Hin & H). apply andb_prop in H as [H1 H2].
    exists r. repeat split; [assumption | apply String.eqb_eq, H1 |
                             apply value_eqb_eq, H2].
  - intros (r & Hin & H1 & H2). exists r. split; [assumption|].
    apply andb_true_intro. split;
      [apply String.eqb_eq, H1 | apply value_eqb_eq, H2].
Qed.

Lemma known_none s userId xid :
  (forall r, In r s -> ~ (user_id r = userId /\ external_id r = xid)) ->
  known s userId xid = false.
Proof.
  intro H. destruct (known s userId xid) eqn:E; [|reflexivity].
  apply known_spec in E as (r & Hin & H1 & H2).
  exfalso. apply (H r Hin). split; assumption.
Qed.

Lemma lookup_set_same k v fs : lookup k (set k v fs) = Some v.
Proof.
  induction fs as [|[k' v'] fs IH]; simpl.
  - rewrite String.eqb_refl. reflexivity.
  - destruct (String.eqb k k') eqn:E; simpl.
    + rewrite String.eqb_refl. reflexivity.
    + rewrite E. exact IH.
Qed.

Lemma lookup_set_other k k' v fs :
  k' <> k -> lookup k' (set k v fs) = lookup k' fs.
Proof.
  intro Hne. induction fs as [|[k0 v0] fs IH]; simpl.
  - destruct (String.eqb k' k) eqn:E; [apply String.eqb_eq in E; contradiction|].
    reflexivity.
  - destruct (String.eqb k k0) eqn:E; simpl.
    + apply String.eqb_eq in E. subst k0.
      destruct (String.eqb k' k) eqn:E'; [apply String.eqb_eq in E'; contradiction|].
      reflexivity.
    + rewrite IH. reflexivity.
Qed.

(** Once one member of the first claims entry can be read, any can. *)
Lemma first_claim_any userInfo k v k' :
  first_claim userInfo k = Ok v -> exists w, first_claim userInfo k' = Ok w.
Proof.
  unfold first_claim.
  destruct (get userInfo "DisplayClaims") as [claims|]; [|discriminate].
  destruct (get claims "xui") as [xui|]; [|discriminate].
  destruct (first xui) as [entry|]; [|discriminate].
  destruct entry as [[]|]; simpl; try discriminate; eauto.
Qed.

Lemma first_claim_empty userInfo claims k :
  get userInfo "DisplayClaims" = Ok claims ->
  get claims "xui" = Ok (Some (JArr [])) ->
  first_claim userInfo k = Throw TypeError.
Proof. unfold first_claim. intros -> ->. reflexivity. Qed.

(** *** Objects with distinct keys, as [JSON.parse] builds them *)

Lemma lookup_In k v fs :
  NoDup (map fst fs) -> In (k, v) fs -> lookup k fs = Some v.
Proof.
  induction fs as [|[k' v'] fs IH]; [intros _ []|].
  cbn [map fst lookup]. intros Hnd [H | H].
  - injection H as -> ->. rewrite String.eqb_refl. reflexivity.
  - inversion Hnd as [|? ? Hnotin Hnd']; subst.
    destruct (String.eqb k k') eqn:E.
    + apply String.eqb_eq in E. subst k'. exfalso. apply Hnotin.
      apply (in_map fst) in H. exact H.
    + apply IH; assumption.
Qed.

Lemma set_In_other k v k' v' fs :
  k' <> k -> (In (k', v') (set k v fs) <-> In (k', v') fs).
Proof.
  intro Hne. induction fs as [|[k0 v0] fs IH]; cbn [set].
  - split; [intros [H | []]; injection H as -> _; contradiction | intros []].
  - destruct (String.eqb k k0) eqn:E.
    + apply String.eqb_eq in E. subst k0. cbn [In]. split.
      * intros [H | H]; [injection H as -> _; contradiction | right; exact H].
      * intros [H | H]; [injection H as -> _; contradiction | right; exact H].
    + cbn [In]. rewrite IH. reflexivity.
Qed.

Lemma set_In_same k v v' fs :
  NoDup (map fst fs) -> (In (k, v') (set k v fs) <-> v' = v).
Proof.
  induction fs as [|[k0 v0] fs IH]; cbn [set map fst]; intro Hnd.
  - split; [intros [H | []]; injection H as ->; reflexivity
           | intros ->; left; reflexivity].
  - inversion Hnd as [|? ? Hnotin Hnd']; subst.
    destruct (String.eqb k k0) eqn:E.
    + apply String.eqb_eq in E. subst k0. cbn [In]. split.
      * intros [H | H]; [injection H as ->; reflexivity|].
        exfalso. apply Hnotin. apply (in_map fst) in H. exact H.
      * intros ->. left. reflexivity.
    + cbn [In]. rewrite (IH Hnd'). split.
      * intros [H | H]; [|exact H]. injection H as -> _.
        rewrite String.eqb_refl in E. discriminate.
      * intros ->. right. reflexivity.
Qed.

(** Reading the first claims entry of a reply of the expected shape. *)
Lemma first_claim_In info claims entry others k v :
  NoDup (map fst info) ->
  In ("DisplayClaims", JObj claims) info ->
  NoDup (map fst claims) ->
  In ("xui", JArr (JObj entry :: others)) claims ->
  NoDup (map fst entry) ->
  In (k, v) entry ->
  first_claim (Some (JObj info)) k = Ok (Some v).
Proof.
  intros H1 H2 H3 H4 H5 H6. unfold first_claim. cbn [get].
  rewrite (lookup_In _ _ _ H1 H2). cbn [get].
  rewrite (lookup_In _ _ _ H3 H4). cbn [first nth_error get].
  rewrite (lookup_In _ _ _ H5 H6). reflexivity.
Qed.

(** ** What a run of each stage leaves behind *)

Lemma exchangeCode_writes env st c s :
  writes (events (exchangeCode env st c s)) = [].
Proof. apply exchangeCode_quiet. Qed.

Lemma exchangeCode_checks env st c s :
  checks (events (exchangeCode env st c s)) = [].
Proof. apply exchangeCode_quiet. Qed.

Lemma getUserToken_writes env token s :
  writes (events (getUserToken env token s)) = [].
Proof. apply getUserToken_quiet. Qed.

Lemma getUserToken_checks env token s :
  checks (events (getUserToken env token s)) = [].
Proof. apply getUserToken_quiet. Qed.

Lemma getUser_writes env token s :
  writes (events (getUser env token s)) = [].
Proof. apply getUser_quiet. Qed.

Lemma getUser_checks env token s :
  checks (events (getUser env token s)) = [].
Proof. apply getUser_quiet. Qed.

Create Rewrite HintDb run.
#[export] Hint Rewrite writes_app checks_app fetches_app calls_app : run.
#[export] Hint Rewrite exchangeCode_writes exchangeCode_checks
  getUserToken_writes getUserToken_checks getUserToken_fetches
  getUser_writes getUser_checks getUser_fetches : run.

(** Rewrites the callback into its explicit form and follows the stages
    whose results are known. *)
Ltac follow_chain H :=
  let Hu := fresh "Hu" in
  let Ha := fresh "Ha" in
  let tok := fresh "access_token" in
  let Ht := fresh "Ht" in
  let Hb := fresh "Hb" in
  let Hc := fresh "Hc" in
  destruct H as (Hu & Ha & (tok & Ht & Hb) & Hc);
  unfold getUserId, settle in Hu; cbn [res] in Hu;
  rewrite handleCallback_run; cbv zeta;
  rewrite Hu, Ha, Ht, Hb, Hc.

(** ** The callback *)

(** C2. When the three stages succeed and a record is already stored for
    the pair (host user id, xid of the first claims entry), the callback
    returns null, leaves the store as it was and writes nothing. *)
Theorem relink_is_noop env p s userId tokenData userToken userInfo xid :
  chain_succeeds env p s userId tokenData userToken userInfo ->
  first_claim userInfo "xid" = Ok xid ->
  (exists r, In r s /\ user_id r = userId /\ external_id r = xid) ->
  res (handleCallback env p s) = Ok None /\
  store (handleCallback env p s) = s /\
  writes (events (handleCallback env p s)) = [].
Proof.
  intros H Hx Hk. apply known_spec in Hk.
  follow_chain H. rewrite Hx, Hk. cbn [res store events].
  autorewrite with run. auto.
Qed.

(** C3. When the three stages succeed and no record is stored for the pair,
    the callback creates exactly one record. Its external id and name are
    the xid and gtg found in the first entry of the reply's
    [DisplayClaims.xui]; its token data holds every member of the Stage-A
    reply and [fetched_at], set to the current time, in place of any
    [fetched_at] of the reply; its user id, friend-sync flag and type are
    the recovered host user id, the callback parameter and ["xbox"]. *)
Theorem new_link_record env p s userId tokenData userToken userInfo xid :
  chain_succeeds env p s userId tokenData userToken userInfo ->
  first_claim userInfo "xid" = Ok xid ->
  (forall r, In r s -> ~ (user_id r = userId /\ external_id r = xid)) ->
  exists data,
    res (handleCallback env p s) = Ok (Some data) /\
    store (handleCallback env p s) = s ++ [data] /\
    writes (events (handleCallback env p s)) = [data] /\
    first_claim userInfo "xid" = Ok (external_id data) /\
    first_claim userInfo "gtg" = Ok (name data) /\
    token_data data = set "fetched_at" (number (now env)) (spread tokenData) /\
    user_id data = userId /\
    ca_friend_sync data = friend_sync p /\
    type data = "xbox" /\
    (forall fields,
        tokenData = Some (JObj fields) ->
        NoDup (map fst fields) ->
        (forall k v, k <> "fetched_at" ->
                     (In (k, v) (token_data data) <-> In (k, v) fields)) /\
        (forall v, In ("fetched_at", v) (token_data data)
                   <-> v = JNum (of_Z (now env)))) /\
    (forall info claims entry others,
        userInfo = Some (JObj info) ->
        NoDup (map fst info) ->
        In ("DisplayClaims", JObj claims) info ->
        NoDup (map fst claims) ->
        In ("xui", JArr (JObj entry :: others)) claims ->
        NoDup (map fst entry) ->
        (forall x, In ("xid", x) entry -> external_id data = Some x) /\
        (forall g, In ("gtg", g) entry -> name data = Some g)).
Proof.
  intros H Hx Hk. apply known_none in Hk.
  destruct (first_claim_any _ _ _ "gtg" Hx) as [gtg Hg].
  exists (record_of env p userId tokenData xid gtg).
  follow_chain H. rewrite Hx, Hk, Hg. cbn [res store events].
  autorewrite with run. cbn [writes app record_of token_data external_id name
                             user_id ca_friend_sync type].
  repeat apply conj; try reflexivity.
  - intros fields -> Hnd. cbn [spread]. split.
    + intros k v Hne. apply set_In_other, Hne.
    + intro v. apply set_In_same, Hnd.
  - intros info claims entry others -> H1 H2 H3 H4 H5. split.
    + intros x Hin.
      pose proof (first_claim_In _ _ _ _ _ _ H1 H2 H3 H4 H5 Hin) as E.
      congruence.
    + intros g Hin.
      pose proof (first_claim_In _ _ _ _ _ _ H1 H2 H3 H4 H5 Hin) as E.
      congruence.
Qed.

(** C10. The first claims entry is read without a check that there is one:
    when the three stages succeed and the xui array of the Stage-C response
    is empty, the callback ends in a TypeError, outside the error table,
    before the existence check and without any write. *)
Theorem empty_claims_unguarded env p s userId tokenData userToken userInfo claims :
  chain_succeeds env p s userId tokenData userToken userInfo ->
  get userInfo "DisplayClaims" = Ok claims ->
  get claims "xui" = Ok (Some (JArr [])) ->
  first (Some (JArr [])) = Ok undefined /\
  res (handleCallback env p s) = Throw TypeError /\
  (forall k, res (handleCallback env p s) <> Throw (Discord k)) /\
  checks (events (handleCallback env p s)) = [] /\
  writes (events (handleCallback env p s)) = [] /\
  store (handleCallback env p s) = s.
Proof.
  intros H Hd Hx. pose proof (first_claim_empty _ _ "xid" Hd Hx) as He.
  follow_chain H. rewrite He. unfold stop. cbn [res store events].
  autorewrite with run. repeat split; try reflexivity. discriminate.
Qed.

(** ** Which endpoints a run calls *)

Lemma exchangeCode_calls env st c s u :
  calls u (events (exchangeCode env st c s)) =
  if valid env st && String.eqb tokenUrl u then 1%nat else 0%nat.
Proof.
  rewrite calls_fetches, exchangeCode_fetches.
  destruct (valid env st); [|reflexivity].
  cbn [filter url tokenRequest andb]. destruct (String.eqb tokenUrl u); reflexivity.
Qed.

Lemma getUserToken_calls env token s u :
  calls u (events (getUserToken env token s)) =
  match text token with
  | Ok _ => if String.eqb userAuthUrl u then 1%nat else 0%nat
  | Throw _ => 0%nat
  end.
Proof.
  rewrite calls_fetches, getUserToken_fetches.
  destruct (text token); [|reflexivity].
  cbn [filter url userTokenRequest]. destruct (String.eqb userAuthUrl u); reflexivity.
Qed.

Lemma getUser_calls env token s u :
  calls u (events (getUser env token s)) =
  if String.eqb userInfoUrl u then 1%nat else 0%nat.
Proof.
  rewrite calls_fetches, getUser_fetches.
  cbn [filter]. change (url (userRequest token)) with userInfoUrl.
  destruct (String.eqb userInfoUrl u); reflexivity.
Qed.

#[export] Hint Rewrite exchangeCode_calls getUserToken_calls getUser_calls
  andb_false_r andb_true_r : run.

Lemma exchangeCode_fetch_url env st c s req :
  In req (fetches (events (exchangeCode env st c s))) -> url req = tokenUrl.
Proof.
  rewrite exchangeCode_fetches. destruct (valid env st); [|intros []].
  intros [<- | []]. reflexivity.
Qed.

Lemma getUserToken_fetch env token s req :
  In req (fetches (events (getUserToken env token s))) ->
  exists ticket, text token = Ok ticket /\ req = userTokenRequest ticket.
Proof.
  rewrite getUserToken_fetches. destruct (text token) as [ticket|]; [|intros []].
  intros [<- | []]. eauto.
Qed.

Lemma getUser_fetch_url env token s req :
  In req (fetches (events (getUser env token s))) -> url req = userInfoUrl.
Proof. rewrite getUser_fetches. intros [<- | []]. reflexivity. Qed.

Lemma text_absent v :
  absent v -> setting_text v = "null" \/ setting_text v = "undefined".
Proof. intros [-> | ->]; [left | right]; reflexivity. Qed.

(** *** Serialized text can be read back *)

Lemma append_assoc (a b c : string) : ((a ++ b) ++ c = a ++ (b ++ c))%string.
Proof. induction a as [|x a IH]; cbn; [reflexivity | rewrite IH; reflexivity]. Qed.

Lemma form_decode_unit_byte c rest :
  form_decode_unit (Encoding.form_byte c ++ rest)%string = Some (c, rest).
Proof. destruct c as [[] [] [] [] [] [] [] []]; reflexivity. Qed.

Lemma form_text_injective a :
  forall b, Encoding.form_text a = Encoding.form_text b -> a = b.
Proof.
  induction a as [|x a IH]; intros [|y b] H; cbn [Encoding.form_text] in H.
  - reflexivity.
  - apply (f_equal form_decode_unit) in H.
    rewrite form_decode_unit_byte in H. discriminate.
  - apply (f_equal form_decode_unit) in H.
    rewrite form_decode_unit_byte in H. discriminate.
  - apply (f_equal form_decode_unit) in H.
    rewrite !form_decode_unit_byte in H. injection H as -> H.
    rewrite (IH b H). reflexivity.
Qed.

(** ** The stages *)

(** C5. [exchangeCode] checks the state before anything else: its first
    action is the validation, and a state the codec rejects ends the call
    with the invalid-state error, no request sent, the store untouched. *)
Theorem exchangeCode_validates_first env st c s :
  (exists tail, events (exchangeCode env st c s) = EvValidateState st :: tail) /\
  (valid env st = false ->
   res (exchangeCode env st c s) = Throw (Discord INVALID_OAUTH_STATE) /\
   fetches (events (exchangeCode env st c s)) = [] /\
   store (exchangeCode env st c s) = s).
Proof.
  split; [apply exchangeCode_starts|].
  intro H. rewrite (exchangeCode_invalid env st c s H). auto.
Qed.

(** C4, as the code has it. A failed exchange (Stage A, state accepted) and
    a failed identity fetch (Stage C) both raise the same GENERAL_ERROR. A
    failed session-token call (Stage B) is told apart: it raises
    INVALID_OAUTH_TOKEN once its request is built, and a bare TypeError
    when the access token cannot be turned into text for the request. *)
Theorem stage_error_kinds env :
  (forall st c s e,
      valid env st = true ->
      res (exchangeCode env st c s) = Throw e -> e = Discord GENERAL_ERROR) /\
  (forall token s e,
      res (getUserToken env token s) = Throw e ->
      ((exists ticket, text token = Ok ticket) /\
       e = Discord INVALID_OAUTH_TOKEN) \/
      (text token = Throw TypeError /\ e = TypeError)) /\
  (forall token s e,
      res (getUser env token s) = Throw e -> e = Discord GENERAL_ERROR) /\
  Discord INVALID_OAUTH_TOKEN <> Discord GENERAL_ERROR /\
  TypeError <> Discord GENERAL_ERROR.
Proof.
  repeat apply conj.
  - intros st c s e Hv H.
    destruct (exchangeCode_throws env st c s e H) as [[Hv' _] | [_ He]];
      [congruence | exact He].
  - intros token s e. apply getUserToken_throws.
  - intros token s e. apply getUser_throws.
  - discriminate.
  - discriminate.
Qed.

(** C9. The redirect_uri that [getAuthorizationUrl] embeds in the URL it
    returns, as the value of the query parameter [redirect_uri], is the
    redirect_uri of the form body that [exchangeCode] sends, whatever the
    configuration; the serialized form identifies the value. *)
Theorem redirect_uri_agrees env userId st c s :
  exists r,
    getAuthorizationUrl env userId
    = ("https://login.live.com/oauth20_authorize.srf?client_id="
       ++ Encoding.form_text (setting_text (clientId (settings env)))
       ++ "&redirect_uri=" ++ Encoding.form_text r
       ++ "&response_type=code&scope=Xboxlive.signin+Xboxlive.offline_access&state="
       ++ Encoding.form_text (createState env userId)
       ++ "&approval_prompt=auto")%string /\
    (forall r', Encoding.form_text r' = Encoding.form_text r -> r' = r) /\
    param "redirect_uri" (searchParams (authorizationUrl env userId)) = Some r /\
    body (tokenRequest env getTokenUrl c)
    = Form [("grant_type", "authorization_code");
            ("code", code_text c);
            ("client_id", setting_text (clientId (settings env)));
            ("redirect_uri", r);
            ("scope", "Xboxlive.signin Xboxlive.offline_access")] /\
    (valid env st = true ->
     fetches (events (exchangeCode env st c s)) = [tokenRequest env getTokenUrl c]).
Proof.
  exists (or_else (endpointPrivate env) "http://localhost:3001"
          ++ "/connections/" ++ id ++ "/callback")%string.
  repeat apply conj.
  - unfold getAuthorizationUrl, URL_toString, authorizationUrl, append, new_URL.
    cbn [searchParams href app Encoding.form_urlencoded map join fold_left fst snd].
    generalize (Encoding.form_text (setting_text (clientId (settings env)))).
    generalize (Encoding.form_text
                  (or_else (endpointPrivate env) "http://localhost:3001"
                   ++ "/connections/" ++ id ++ "/callback")%string).
    generalize (Encoding.form_text (createState env userId)).
    intros a b d. rewrite !append_assoc. reflexivity.
  - intros r' H. symmetry. apply form_text_injective. symmetry. exact H.
  - reflexivity.
  - reflexivity.
  - intro H. rewrite exchangeCode_fetches, H. reflexivity.
Qed.

(** C7, as the code has it. Absent credentials are not checked: the
    authorization URL is still built, with the text "null" or "undefined"
    as client id, and for an accepted state the token request is still
    sent, its Authorization header and client_id built from that text. *)
Theorem absent_credentials_are_sent env userId st c s :
  absent (clientId (settings env)) \/ absent (clientSecret (settings env)) ->
  valid env st = true ->
  (setting_text (clientId (settings env)) = "null" \/
   setting_text (clientId (settings env)) = "undefined" \/
   setting_text (clientSecret (settings env)) = "null" \/
   setting_text (clientSecret (settings env)) = "undefined") /\
  getAuthorizationUrl env userId = URL_toString (authorizationUrl env userId) /\
  param "client_id" (searchParams (authorizationUrl env userId))
    = Some (setting_text (clientId (settings env))) /\
  fetches (events (exchangeCode env st c s)) = [tokenRequest env tokenUrl c] /\
  param "Authorization" (headers (tokenRequest env tokenUrl c))
    = Some ("Basic " ++ Encoding.base64
              (setting_text (clientId (settings env)) ++ ":"
               ++ setting_text (clientSecret (settings env))))%string /\
  (exists ps, body (tokenRequest env tokenUrl c) = Form ps /\
              param "client_id" ps = Some (setting_text (clientId (settings env)))).
Proof.
  intros Habs Hv. repeat split.
  - destruct Habs as [H | H]; apply text_absent in H; tauto.
  - rewrite exchangeCode_fetches, Hv. reflexivity.
  - eexists. split; reflexivity.
Qed.

(** ** The callback as a whole *)

Ltac no_effect := unfold stop; cbn [res store events]; autorewrite with run.

(** C1. A write happens only after the three stages and the existence
    check have succeeded; a failing stage is propagated as it is, with the
    store untouched and nothing written; and on the full success path with
    no prior record exactly one write is made. *)
Theorem write_only_after_success env p s :
  (writes (events (handleCallback env p s)) <> [] \/
   store (handleCallback env p s) <> s ->
   exists userId tokenData userToken userInfo xid,
     chain_succeeds env p s userId tokenData userToken userInfo /\
     first_claim userInfo "xid" = Ok xid /\
     res (hasConnection userId xid s) = Ok false) /\
  (forall e,
      stage_fails env p s e ->
      res (handleCallback env p s) = Throw e /\
      store (handleCallback env p s) = s /\
      writes (events (handleCallback env p s)) = []) /\
  (forall userId tokenData userToken userInfo xid,
      chain_succeeds env p s userId tokenData userToken userInfo ->
      first_claim userInfo "xid" = Ok xid ->
      res (hasConnection userId xid s) = Ok false ->
      exists data,
        writes (events (handleCallback env p s)) = [data] /\
        store (handleCallback env p s) = s ++ [data]).
Proof.
  repeat apply conj.
  - rewrite handleCallback_run. cbv zeta.
    destruct (owner env (state p)) as [userId|] eqn:Hu;
      [|no_effect; intros [H|H]; exfalso; apply H; reflexivity].
    destruct (res (exchangeCode env (state p) (code p) s)) as [tokenData|] eqn:Ha;
      [|no_effect; intros [H|H]; exfalso; apply H; reflexivity].
    destruct (get tokenData "access_token") as [access_token|] eqn:Ht;
      [|no_effect; intros [H|H]; exfalso; apply H; reflexivity].
    destruct (res (getUserToken env access_token s)) as [userToken|] eqn:Hb;
      [|no_effect; intros [H|H]; exfalso; apply H; reflexivity].
    destruct (res (getUser env userToken s)) as [userInfo|] eqn:Hc;
      [|no_effect; intros [H|H]; exfalso; apply H; reflexivity].
    destruct (first_claim userInfo "xid") as [xid|] eqn:Hx;
      [|no_effect; intros [H|H]; exfalso; apply H; reflexivity].
    destruct (known s userId xid) eqn:Hk;
      [no_effect; intros [H|H]; exfalso; apply H; reflexivity|].
    intros _. exists userId, tokenData, userToken, userInfo, xid.
    repeat split; try assumption.
    + exists access_token. split; assumption.
    + cbn [hasConnection res]. rewrite Hk. reflexivity.
  - intros e (userId & Hu & H).
    unfold getUserId, settle in Hu; cbn [res] in Hu.
    rewrite handleCallback_run. cbv zeta. rewrite Hu.
    destruct H as [Ha | (tokenData & access_token & Ha & Ht & H)].
    { rewrite Ha. no_effect. auto. }
    rewrite Ha, Ht.
    destruct H as [Hb | (userToken & Hb & Hc)].
    { rewrite Hb. no_effect. auto. }
    rewrite Hb, Hc. no_effect. auto.
  - intros userId tokenData userToken userInfo xid H Hx Hk.
    cbn [hasConnection res] in Hk. injection Hk as Hk.
    destruct (first_claim_any _ _ _ "gtg" Hx) as [gtg Hg].
    exists (record_of env p userId tokenData xid gtg).
    follow_chain H. rewrite Hx, Hk, Hg. cbn [res store events].
    autorewrite with run. split; reflexivity.
Qed.

(** C6, as the code has it. When the session-token call (Stage B) fails in
    transport, returns a non-success status, or returns a body that is not
    a JSON document or is the document null, the callback fails with
    INVALID_OAUTH_TOKEN and the identity endpoint (Stage C) is never
    called. A JSON body that merely lacks [Token] is not covered. *)
Theorem unreadable_user_token_stops env p s req :
  In req (fetches (events (handleCallback env p s))) ->
  url req = userAuthUrl ->
  unreadable (remote env req) ->
  res (handleCallback env p s) = Throw (Discord INVALID_OAUTH_TOKEN) /\
  calls userInfoUrl (events (handleCallback env p s)) = 0%nat /\
  writes (events (handleCallback env p s)) = [] /\
  store (handleCallback env p s) = s.
Proof.
  rewrite handleCallback_run. cbv zeta. intros Hin Hurl Hbad.
  assert (HA : ~ In req (fetches (events (exchangeCode env (state p) (code p) s)))).
  { intro H. apply exchangeCode_fetch_url in H. rewrite H in Hurl. discriminate. }
  assert (HC : forall token, req <> userRequest token).
  { intros token ->. discriminate. }
  assert (HB : forall token ticket,
             text token = Ok ticket -> req = userTokenRequest ticket ->
             res (getUserToken env token s) = Throw (Discord INVALID_OAUTH_TOKEN)).
  { intros token ticket Ht ->. apply (getUserToken_unreadable env _ _ _ Ht Hbad). }
  destruct (owner env (state p)) as [userId|]; [|destruct Hin].
  destruct (res (exchangeCode env (state p) (code p) s)) as [tokenData|];
    [|contradiction].
  destruct (get tokenData "access_token") as [access_token|]; [|contradiction].
  destruct (res (getUserToken env access_token s)) as [userToken|e] eqn:Hb.
  - exfalso.
    destruct (getUserToken_coercible env _ _ _ Hb) as [ticket Ht].
    assert (Hin' : In req (fetches (events (exchangeCode env (state p) (code p) s))
                           ++ [userTokenRequest ticket]
                           ++ [userRequest userToken])).
    { destruct (res (getUser env userToken s));
        [destruct (first_claim _ "xid");
         [destruct (known s userId _);
          [|destruct (first_claim _ "gtg")]|]|];
        revert Hin; no_effect; rewrite Ht; cbn [fetches app]; rewrite ?app_nil_r;
        intro Hin; repeat rewrite in_app_iff in *; cbn [In] in *; tauto. }
    repeat rewrite in_app_iff in Hin'. cbn [In] in Hin'.
    destruct Hin' as [H | [[H | []] | [H | []]]];
      [exact (HA H) | symmetry in H; apply (HB _ _ Ht) in H; congruence
       | symmetry in H; exact (HC _ H)].
  - revert Hin. no_effect. cbn [fetches]. rewrite in_app_iff.
    destruct (text access_token) as [ticket|] eqn:Ht;
      [|intros [H | []]; contradiction].
    intros [H | [H | []]]; [contradiction|].
    symmetry in H. apply (HB _ _ Ht) in H. rewrite Hb in H. injection H as ->.
    cbn. rewrite ?Ht. auto.
Qed.

(** C8, as the code has it. An empty code is not checked by the callback:
    it is sent to the token endpoint like any other. The callback stops
    before the session-token and identity endpoints are called when the
    exchange fails; when the exchange succeeds it calls the session-token
    endpoint, provided the [access_token] of the reply can be turned into
    text for the request. *)
Theorem empty_code_reaches_exchange env p s userId :
  code p = Some "" ->
  res (getUserId env (state p) s) = Ok userId ->
  valid env (state p) = true ->
  (exists req ps,
      fetches (events (exchangeCode env (state p) (code p) s)) = [req] /\
      In req (fetches (events (handleCallback env p s))) /\
      body req = Form ps /\ param "code" ps = Some "") /\
  (forall e,
      res (exchangeCode env (state p) (code p) s) = Throw e ->
      res (handleCallback env p s) = Throw e /\
      calls userAuthUrl (events (handleCallback env p s)) = 0%nat /\
      calls userInfoUrl (events (handleCallback env p s)) = 0%nat) /\
  (forall tokenData access_token,
      res (exchangeCode env (state p) (code p) s) = Ok tokenData ->
      get tokenData "access_token" = Ok access_token ->
      calls userAuthUrl (events (handleCallback env p s))
      = match text access_token with
        | Ok _ => 1%nat
        | Throw _ => 0%nat
        end).
Proof.
  intros Hcode Hu Hv. unfold getUserId, settle in Hu; cbn [res] in Hu.
  rewrite handleCallback_run. cbv zeta. rewrite Hu.
  repeat apply conj.
  - exists (tokenRequest env tokenUrl (code p)). eexists.
    rewrite exchangeCode_fetches, Hv. split; [reflexivity|]. split.
    + assert (Hin : In (tokenRequest env tokenUrl (code p))
                       (fetches (events (exchangeCode env (state p) (code p) s)))).
      { rewrite exchangeCode_fetches, Hv. left. reflexivity. }
      destruct (res (exchangeCode env (state p) (code p) s)); [|exact Hin].
      destruct (get a "access_token"); [|exact Hin].
      destruct (res (getUserToken env a0 s));
        [destruct (res (getUser env a1 s));
         [destruct (first_claim _ "xid");
          [destruct (known s userId _);
           [|destruct (first_claim _ "gtg")]|]|]|];
        unfold stop; cbn [res store events]; rewrite ?fetches_app;
        repeat rewrite in_app_iff; auto.
    + split; [reflexivity|]. rewrite Hcode. reflexivity.
  - intros e Ha. rewrite Ha. no_effect. rewrite ?Hv. auto.
  - intros tokenData access_token Ha Ht. rewrite Ha, Ht.
    destruct (res (getUserToken env access_token s)) eqn:Hb;
      [destruct (getUserToken_coercible env _ _ _ Hb) as [ticket Hc];
       destruct (res (getUser env a s));
       [destruct (first_claim _ "xid");
        [destruct (known s userId _);
         [|destruct (first_claim _ "gtg")]|]|]|];
      no_effect; rewrite ?Hv; try rewrite Hc; reflexivity.
Qed.

(** ** The scenarios, run *)

Ltac chain_holds :=
  unfold chain_succeeds; repeat split; try reflexivity;
  eexists; split; reflexivity.

(** C4 as stated fails: with every endpoint refusing, a failed exchange and
    a failed identity fetch raise one and the same error. *)
Lemma exchange_and_identity_errors_coincide :
  valid outage "state-u1" = true /\
  exists e,
    res (exchangeCode outage "state-u1" (Some "abc123") []) = Throw e /\
    res (getUser outage (Some (JStr "ST1")) []) = Throw e.
Proof. split; [reflexivity|]. eexists. split; reflexivity. Qed.

(** C6 as stated fails: a session-token reply without [Token] is not an
    error; the callback goes on to call the identity endpoint and links
    the account. *)
Lemma token_less_reply_reaches_identity :
  remote token_less (userTokenRequest "AT1") = replied (JObj []) /\
  get (Some (JObj [])) "Token" = Ok undefined /\
  fetches (events (handleCallback token_less callback [])) =
    [tokenRequest token_less tokenUrl (Some "abc123");
     userTokenRequest "AT1";
     userRequest undefined] /\
  res (handleCallback token_less callback []) = Ok (Some linked) /\
  calls userInfoUrl (events (handleCallback token_less callback [])) = 1%nat.
Proof. repeat split. Qed.

(** C7 as stated fails: with no credentials configured the authorization
    URL is still produced and the token request is still sent. *)
Lemma absent_credentials_not_rejected :
  absent (clientId (settings misconfigured)) /\
  absent (clientSecret (settings misconfigured)) /\
  getAuthorizationUrl misconfigured "u1" =
    "https://login.live.com/oauth20_authorize.srf?client_id=null&redirect_uri=http%3A%2F%2Flocalhost%3A3001%2Fconnections%2Fxbox%2Fcallback&response_type=code&scope=Xboxlive.signin+Xboxlive.offline_access&state=state-u1&approval_prompt=auto" /\
  res (exchangeCode misconfigured "state-u1" (Some "abc123") [])
    = Ok (Some token_reply) /\
  map (fun r => param "Authorization" (headers r))
      (fetches (events (exchangeCode misconfigured "state-u1" (Some "abc123") [])))
    = [Some "Basic bnVsbDpudWxs"].
Proof.
  split; [left; reflexivity|]. split; [left; reflexivity|]. repeat split.
Qed.

(** C8 as stated fails: with a provider that accepts it, an empty code
    goes through all three stages and the account is linked. *)
Lemma empty_code_reaches_all_stages :
  code empty_callback = Some "" /\
  res (handleCallback happy empty_callback []) = Ok (Some linked) /\
  calls userAuthUrl (events (handleCallback happy empty_callback [])) = 1%nat /\
  calls userInfoUrl (events (handleCallback happy empty_callback [])) = 1%nat.
Proof. repeat split. Qed.

Lemma write_only_after_success_witness :
  (exists data,
      writes (events (handleCallback happy callback [])) = [data] /\
      store (handleCallback happy callback []) = [] ++ [data]) /\
  (res (handleCallback exchange_down callback []) = Throw (Discord GENERAL_ERROR) /\
   store (handleCallback exchange_down callback []) = [] /\
   writes (events (handleCallback exchange_down callback [])) = []).
Proof.
  split.
  - apply (proj2 (proj2 (write_only_after_success happy callback []))
             "u1" (Some token_reply) (Some (JStr "ST1")) (Some claims_reply)
             (Some (JStr "X1"))); [chain_holds | reflexivity | reflexivity].
  - apply (proj1 (proj2 (write_only_after_success exchange_down callback []))).
    exists "u1". split; [reflexivity | left; reflexivity].
Defined.

Lemma relink_is_noop_witness :
  res (handleCallback happy callback [linked]) = Ok None /\
  store (handleCallback happy callback [linked]) = [linked] /\
  writes (events (handleCallback happy callback [linked])) = [].
Proof.
  apply (relink_is_noop happy callback [linked]
           "u1" (Some token_reply) (Some (JStr "ST1")) (Some claims_reply)
           (Some (JStr "X1"))); [chain_holds | reflexivity |].
  exists linked. repeat split. left. reflexivity.
Defined.

Lemma new_link_record_witness :
  exists data,
    res (handleCallback happy callback []) = Ok (Some data) /\
    store (handleCallback happy callback []) = [data] /\
    writes (events (handleCallback happy callback [])) = [data] /\
    external_id data = Some (JStr "X1") /\
    name data = Some (JStr "Gamer1") /\
    In ("access_token", JStr "AT1") (token_data data) /\
    In ("fetched_at", JNum "1700000000000") (token_data data) /\
    user_id data = "u1" /\
    ca_friend_sync data = Some true /\
    type data = "xbox".
Proof.
  destruct (new_link_record happy callback []
              "u1" (Some token_reply) (Some (JStr "ST1")) (Some claims_reply)
              (Some (JStr "X1")))
    as (data & Hres & Hstore & Hwrites & _ & _ & _ & Hu & Hf & Ht & Htok & Hclaims);
    [chain_holds | reflexivity | intros r [] |].
  destruct (Htok [("access_token", JStr "AT1")] eq_refl) as [Hkeep Hat].
  { repeat constructor. intros []. }
  destruct (Hclaims
              [("DisplayClaims",
                JObj [("xui", JArr [JObj [("xid", JStr "X1"); ("gtg", JStr "Gamer1")]])])]
              [("xui", JArr [JObj [("xid", JStr "X1"); ("gtg", JStr "Gamer1")]])]
              [("xid", JStr "X1"); ("gtg", JStr "Gamer1")] [] eq_refl)
    as [Hxid Hgtg].
  { repeat constructor. intros []. }
  { left. reflexivity. }
  { repeat constructor. intros []. }
  { left. reflexivity. }
  { repeat constructor; cbn; intuition discriminate. }
  exists data. repeat apply conj; try assumption.
  - apply Hxid. left. reflexivity.
  - apply Hgtg. right. left. reflexivity.
  - apply Hkeep; [discriminate | left; reflexivity].
  - apply Hat. reflexivity.
Defined.

Lemma empty_claims_unguarded_witness :
  first (Some (JArr [])) = Ok undefined /\
  res (handleCallback no_claims callback []) = Throw TypeError /\
  (forall k, res (handleCallback no_claims callback []) <> Throw (Discord k)) /\
  checks (events (handleCallback no_claims callback [])) = [] /\
  writes (events (handleCallback no_claims callback [])) = [] /\
  store (handleCallback no_claims callback []) = [].
Proof.
  apply (empty_claims_unguarded no_claims callback []
           "u1" (Some token_reply) (Some (JStr "ST1"))
           (Some (JObj [("DisplayClaims", JObj [("xui", JArr [])])]))
           (Some (JObj [("xui", JArr [])])));
    [chain_holds | reflexivity | reflexivity].
Defined.

Lemma exchangeCode_validates_first_witness :
  res (exchangeCode happy "forged" (Some "abc123") [])
    = Throw (Discord INVALID_OAUTH_STATE) /\
  fetches (events (exchangeCode happy "forged" (Some "abc123") [])) = [] /\
  store (exchangeCode happy "forged" (Some "abc123") []) = [].
Proof.
  apply (proj2 (exchangeCode_validates_first happy "forged" (Some "abc123") [])).
  reflexivity.
Defined.

Lemma stage_error_kinds_witness :
  Discord GENERAL_ERROR = Discord GENERAL_ERROR /\
  (((exists ticket, text (Some (JStr "AT1")) = Ok ticket) /\
    Discord INVALID_OAUTH_TOKEN = Discord INVALID_OAUTH_TOKEN) \/
   (text (Some (JStr "AT1")) = Throw TypeError /\
    Discord INVALID_OAUTH_TOKEN = TypeError)) /\
  (((exists ticket, text (Some unprintable_token) = Ok ticket) /\
    TypeError = Discord INVALID_OAUTH_TOKEN) \/
   (text (Some unprintable_token) = Throw TypeError /\ TypeError = TypeError)) /\
  Discord GENERAL_ERROR = Discord GENERAL_ERROR.
Proof.
  destruct (stage_error_kinds outage) as (HA & HB & HC & _).
  repeat apply conj.
  - apply (HA "state-u1" (Some "abc123") []); reflexivity.
  - apply (HB (Some (JStr "AT1")) []); reflexivity.
  - apply (HB (Some unprintable_token) []); reflexivity.
  - apply (HC (Some (JStr "ST1")) []); reflexivity.
Defined.

Lemma redirect_uri_agrees_witness :
  getAuthorizationUrl happy "u1"
  = "https://login.live.com/oauth20_authorize.srf?client_id=id&redirect_uri=http%3A%2F%2Flocalhost%3A3001%2Fconnections%2Fxbox%2Fcallback&response_type=code&scope=Xboxlive.signin+Xboxlive.offline_access&state=state-u1&approval_prompt=auto" /\
  param "redirect_uri" (searchParams (authorizationUrl happy "u1"))
  = Some "http://localhost:3001/connections/xbox/callback" /\
  fetches (events (exchangeCode happy "state-u1" (Some "abc123") []))
  = [tokenRequest happy getTokenUrl (Some "abc123")] /\
  body (tokenRequest happy getTokenUrl (Some "abc123"))
  = Form [("grant_type", "authorization_code");
          ("code", "abc123");
          ("client_id", "id");
          ("redirect_uri", "http://localhost:3001/connections/xbox/callback");
          ("scope", "Xboxlive.signin Xboxlive.offline_access")].
Proof.
  destruct (redirect_uri_agrees happy "u1" "state-u1" (Some "abc123") [])
    as (r & Hurl & _ & Hparam & Hbody & Hsent).
  assert (Hr : r = "http://localhost:3001/connections/xbox/callback").
  { cbn in Hparam. injection Hparam as <-. reflexivity. }
  subst r. repeat apply conj.
  - rewrite Hurl. reflexivity.
  - exact Hparam.
  - apply Hsent. reflexivity.
  - exact Hbody.
Defined.

Lemma absent_credentials_are_sent_witness :
  fetches (events (exchangeCode misconfigured "state-u1" (Some "abc123") []))
  = [tokenRequest misconfigured tokenUrl (Some "abc123")].
Proof.
  apply (absent_credentials_are_sent misconfigured "u1" "state-u1"
           (Some "abc123") []); [left; left; reflexivity | reflexivity].
Defined.

Lemma unreadable_user_token_stops_witness :
  res (handleCallback session_down callback [])
    = Throw (Discord INVALID_OAUTH_TOKEN) /\
  calls userInfoUrl (events (handleCallback session_down callback [])) = 0%nat /\
  writes (events (handleCallback session_down callback [])) = [] /\
  store (handleCallback session_down callback []) = [].
Proof.
  apply (unreadable_user_token_stops session_down callback []
           (userTokenRequest "AT1")).
  - right. left. reflexivity.
  - reflexivity.
  - right. eexists. split; [reflexivity | left; reflexivity].
Defined.

Lemma empty_code_reaches_exchange_witness :
  (res (handleCallback exchange_down empty_callback [])
     = Throw (Discord GENERAL_ERROR) /\
   calls userAuthUrl (events (handleCallback exchange_down empty_callback [])) = 0%nat /\
   calls userInfoUrl (events (handleCallback exchange_down empty_callback [])) = 0%nat) /\
  calls userAuthUrl (events (handleCallback happy empty_callback [])) = 1%nat /\
  calls userAuthUrl (events (handleCallback unprintable empty_callback [])) = 0%nat.
Proof.
  split; [|split].
  - apply (proj1 (proj2 (empty_code_reaches_exchange exchange_down empty_callback
                           [] "u1" eq_refl eq_refl eq_refl))).
    reflexivity.
  - apply (proj2 (proj2 (empty_code_reaches_exchange happy empty_callback
                           [] "u1" eq_refl eq_refl eq_refl))
             (Some token_reply) (Some (JStr "AT1"))); reflexivity.
  - apply (proj2 (proj2 (empty_code_reaches_exchange unprintable empty_callback
                           [] "u1" eq_refl eq_refl eq_refl))
             (Some (JObj [("access_token", unprintable_token)]))
             (Some unprintable_token)); reflexivity.
Defined.

(** ** Further properties of the stages *)

Section StageFacts.

Variable env : Env.

Lemma exchangeCode_any_store st c s s' :
  res (exchangeCode env st c s) = res (exchangeCode env st c s') /\
  events (exchangeCode env st c s) = events (exchangeCode env st c s').
Proof.
  open_stage. generalize (tokenRequest env tokenUrl c); intro req.
  split_run; split; reflexivity.
Qed.

Lemma getUserToken_any_store token s s' :
  res (getUserToken env token s) = res (getUserToken env token s') /\
  events (getUserToken env token s) = events (getUserToken env token s').
Proof.
  unfold getUserToken. rewrite !bind_settle.
  destruct (text token) as [ticket|]; [|split; reflexivity].
  unfold fetch. generalize (userTokenRequest ticket); intro req.
  split_run; split; reflexivity.
Qed.

Lemma getUser_any_store token s s' :
  res (getUser env token s) = res (getUser env token s') /\
  events (getUser env token s) = events (getUser env token s').
Proof.
  open_stage. generalize (userRequest token); intro req.
  split_run; split; reflexivity.
Qed.

Lemma exchangeCode_accepted st c s tokenData :
  res (exchangeCode env st c s) = Ok tokenData -> valid env st = true.
Proof.
  open_stage. generalize (tokenRequest env tokenUrl c); intro req.
  split_run; intro H; try discriminate; reflexivity.
Qed.

(** X1. The three network stages never touch the connection store and
    never run an existence check or a write, whatever the remote side
    answers. *)
Theorem stages_leave_store_alone st c token s :
  (store (exchangeCode env st c s) = s /\
   writes (events (exchangeCode env st c s)) = [] /\
   checks (events (exchangeCode env st c s)) = []) /\
  (store (getUserToken env token s) = s /\
   writes (events (getUserToken env token s)) = [] /\
   checks (events (getUserToken env token s)) = []) /\
  (store (getUser env token s) = s /\
   writes (events (getUser env token s)) = [] /\
   checks (events (getUser env token s)) = []).
Proof.
  repeat split;
    auto using exchangeCode_store, getUserToken_store, getUser_store,
      exchangeCode_writes, exchangeCode_checks, getUserToken_writes,
      getUserToken_checks, getUser_writes, getUser_checks.
Qed.

(** X2. [getUserToken] returns exactly when its token can be turned into
    text for the request and the reply has a success status and a JSON
    body other than null; what it returns is that body's [Token] member,
    undefined when there is none. *)
Theorem getUserToken_returns_iff token s v :
  res (getUserToken env token s) = Ok v <->
  exists ticket doc,
    text token = Ok ticket /\
    remote env (userTokenRequest ticket)
      = Responded {| ok := true; parsed := Some doc |} /\
    get (Some doc) "Token" = Ok v.
Proof.
  unfold getUserToken. rewrite bind_settle.
  destruct (text token) as [ticket|e] eqn:Htext.
  - transitivity
      (exists doc,
          remote env (userTokenRequest ticket)
            = Responded {| ok := true; parsed := Some doc |} /\
          get (Some doc) "Token" = Ok v).
    2:{ split.
        - intros (doc & H). exists ticket, doc. split; [reflexivity | exact H].
        - intros (t & doc & Ht & H). injection Ht as <-. eauto. }
    unfold fetch. generalize (userTokenRequest ticket); intro req.
    split_run; split;
      try (intro H; discriminate H);
      try (intros (doc & H & _); discriminate H);
      try (intros (doc & H & H'); injection H as <-; discriminate H');
      try (intro H; eexists; split; [reflexivity | exact H]);
      try (intros (doc & H & H'); injection H as <-; exact H').
  - unfold stop. cbn [res]. split; [discriminate|].
    intros (t & doc & Ht & _). discriminate Ht.
Qed.

(** X3. [exchangeCode] returns exactly when the state is accepted and the
    reply has a success status and a JSON body, not null, whose [error]
    member is falsy; it returns that body as it is. *)
Theorem exchangeCode_returns_iff st c s v :
  res (exchangeCode env st c s) = Ok v <->
  valid env st = true /\
  exists doc error,
    remote env (tokenRequest env tokenUrl c)
      = Responded {| ok := true; parsed := Some doc |} /\
    get (Some doc) "error" = Ok error /\
    truthy error = false /\
    v = Some doc.
Proof.
  open_stage. generalize (tokenRequest env tokenUrl c); intro req.
  split_run; split;
    try (intro H; discriminate H);
    try (intros (H & _); discriminate H);
    try (intros (_ & doc & error & H & _); discriminate H);
    try (intros (_ & doc & error & H & H1 & H2 & H3);
         injection H as <-; cbn [get] in H1; injection H1 as <-; congruence);
    try (intros (_ & doc & error & H & H1 & _);
         injection H as <-; discriminate H1);
    try (intro H; injection H as <-; split; [reflexivity|];
         do 2 eexists; repeat split; try reflexivity; assumption).
Qed.

(** X4. [getUser] returns exactly when the reply has a success status and a
    JSON body, not null, whose [error] member is falsy; it returns that
    body as it is. *)
Theorem getUser_returns_iff token s v :
  res (getUser env token s) = Ok v <->
  exists doc error,
    remote env (userRequest token)
      = Responded {| ok := true; parsed := Some doc |} /\
    get (Some doc) "error" = Ok error /\
    truthy error = false /\
    v = Some doc.
Proof.
  open_stage. generalize (userRequest token); intro req.
  split_run; split;
    try (intro H; discriminate H);
    try (intros (doc & error & H & _); discriminate H);
    try (intros (doc & error & H & H1 & H2 & H3);
         injection H as <-; cbn [get] in H1; injection H1 as <-; congruence);
    try (intros (doc & error & H & H1 & _);
         injection H as <-; discriminate H1);
    try (intro H; injection H as <-;
         do 2 eexists; repeat split; try reflexivity; assumption).
Qed.

End StageFacts.

(** X5. A stage logs through [console.error] exactly when it fails after
    its request was sent, and then exactly once: a state rejected by
    [exchangeCode], and a token that [getUserToken] cannot turn into text,
    fail without a log. *)
Theorem failures_are_logged_once env st c token s :
  length (logs (events (exchangeCode env st c s)))
    = (if valid env st && failed (res (exchangeCode env st c s))
       then 1 else 0)%nat /\
  length (logs (events (getUserToken env token s)))
    = (if failed (text token) then 0
       else if failed (res (getUserToken env token s)) then 1 else 0)%nat /\
  length (logs (events (getUser env token s)))
    = (if failed (res (getUser env token s)) then 1 else 0)%nat.
Proof.
  repeat split.
  - open_stage. generalize (tokenRequest env tokenUrl c); intro req.
    split_run; reflexivity.
  - open_session token; split_run; reflexivity.
  - open_stage. generalize (userRequest token); intro req. split_run; reflexivity.
Qed.



(** X8. A non-success status is reported by each stage as its own fixed
    error, and the log records which request failed. *)
Theorem refused_status_is_reported env st c token ticket s :
  (valid env st = true ->
   (exists doc, remote env (tokenRequest env tokenUrl c)
                = Responded {| ok := false; parsed := doc |}) ->
   res (exchangeCode env st c s) = Throw (Discord GENERAL_ERROR) /\
   map snd (logs (events (exchangeCode env st c s)))
     = [ApiError "Failed to exchange code" 0 400]) /\
  (text token = Ok ticket ->
   (exists doc, remote env (userTokenRequest ticket)
                = Responded {| ok := false; parsed := doc |}) ->
   res (getUserToken env token s) = Throw (Discord INVALID_OAUTH_TOKEN) /\
   map snd (logs (events (getUserToken env token s)))
     = [ApiError "Failed to get user token" 0 400]) /\
  ((exists doc, remote env (userRequest token)
                = Responded {| ok := false; parsed := doc |}) ->
   res (getUser env token s) = Throw (Discord GENERAL_ERROR) /\
   map snd (logs (events (getUser env token s)))
     = [ApiError "Failed to fetch user" 0 400]).
Proof.
  repeat apply conj.
  - intros Hv [doc Hr]. open_stage. rewrite Hv, Hr. split; reflexivity.
  - intros Ht [doc Hr]. unfold getUserToken. rewrite bind_settle, Ht.
    unfold fetch. rewrite Hr. split; reflexivity.
  - intros [doc Hr]. open_stage. rewrite Hr. split; reflexivity.
Qed.

(** ** Further properties of the callback *)

Ltac each_path userId s :=
  match goal with
  | |- context [res (exchangeCode ?env ?st ?c s)] =>
      destruct (res (exchangeCode env st c s)) as [?tokenData|?e] eqn:?Ha;
      [destruct (get tokenData "access_token") as [?access_token|?e] eqn:?Ht;
       [destruct (res (getUserToken env access_token s)) as [?userToken|?e] eqn:?Hb;
        [destruct (res (getUser env userToken s)) as [?userInfo|?e] eqn:?Hc;
         [destruct (first_claim userInfo "xid") as [?xid|?e] eqn:?Hx;
          [destruct (known s userId xid) eqn:?Hk;
           [|destruct (first_claim userInfo "gtg") as [?gtg|?e] eqn:?Hg]|]|]|]|]|]
  end.

Lemma get_throws v k e : get v k = Throw e -> e = TypeError.
Proof. destruct v as [[]|]; simpl; intro H; inversion H; reflexivity. Qed.

Lemma first_claim_throws userInfo k e :
  first_claim userInfo k = Throw e -> e = TypeError.
Proof.
  unfold first_claim.
  destruct (get userInfo "DisplayClaims") as [claims|] eqn:H1;
    [|intro H; inversion H; subst; eapply get_throws, H1].
  destruct (get claims "xui") as [xui|] eqn:H2;
    [|intro H; inversion H; subst; eapply get_throws, H2].
  destruct (first xui) as [entry|] eqn:H3.
  - apply get_throws.
  - intro H; inversion H; subst.
    destruct xui as [[| | | [|]| |]|]; simpl in H3; inversion H3; reflexivity.
Qed.

Lemma chain_any_store env p s s' userId tokenData userToken userInfo :
  chain_succeeds env p s userId tokenData userToken userInfo ->
  chain_succeeds env p s' userId tokenData userToken userInfo.
Proof.
  intros (Hu & Ha & (tok & Ht & Hb) & Hc). repeat split.
  - exact Hu.
  - rewrite <- Ha. symmetry. apply exchangeCode_any_store.
  - exists tok. split; [exact Ht|].
    rewrite <- Hb. symmetry. apply getUserToken_any_store.
  - rewrite <- Hc. symmetry. apply getUser_any_store.
Qed.

Lemma known_app s s' userId xid :
  known (s ++ s') userId xid = known s userId xid || known s' userId xid.
Proof. unfold known. apply existsb_app. Qed.

Lemma known_record env p userId tokenData xid gtg :
  known [record_of env p userId tokenData xid gtg] userId xid = true.
Proof.
  unfold known. cbn [existsb record_of user_id external_id].
  rewrite String.eqb_refl, (proj2 (value_eqb_eq xid xid) eq_refl). reflexivity.
Qed.

Lemma stored_for_unknown s userId xid :
  known s userId xid = false -> stored_for s userId xid = [].
Proof.
  unfold known, stored_for. induction s as [|r s IH]; [reflexivity|].
  cbn [existsb filter]. intro H. apply orb_false_elim in H as [H1 H2].
  rewrite H1. apply IH, H2.
Qed.

(** X9. The callback calls the three endpoints at most once each and in the
    order token, session token, identity: the endpoints called always form
    an initial part of that sequence. *)
Theorem endpoints_called_in_order env p s :
  exists rest,
    [tokenUrl; userAuthUrl; userInfoUrl]
    = map url (fetches (events (handleCallback env p s))) ++ rest.
Proof.
  rewrite handleCallback_run. cbv zeta.
  destruct (owner env (state p)) as [userId|]; [|eexists; reflexivity].
  each_path userId s; no_effect; cbn [fetches app];
    rewrite ?app_nil_r, exchangeCode_fetches;
    try (rewrite (exchangeCode_accepted env _ _ _ _ Ha));
    try (destruct (getUserToken_coercible env _ _ _ Hb) as [ticket ->]);
    try (destruct (valid env (state p)));
    try (destruct (text access_token));
    eexists; reflexivity.
Qed.

(** X10. A state the codec rejects stops the callback before any request is
    sent and before anything is written, whatever [getUserId] makes of
    it; the error is [getUserId]'s own or the invalid-state error. *)
Theorem rejected_state_stops_callback env p s :
  valid env (state p) = false ->
  (exists e, res (handleCallback env p s) = Throw e /\
             (owner env (state p) = Throw e \/
              e = Discord INVALID_OAUTH_STATE)) /\
  fetches (events (handleCallback env p s)) = [] /\
  writes (events (handleCallback env p s)) = [] /\
  store (handleCallback env p s) = s.
Proof.
  intro Hv. rewrite handleCallback_run. cbv zeta.
  destruct (owner env (state p)) as [userId|e].
  - rewrite (exchangeCode_invalid env _ (code p) s Hv). cbn.
    split; [eexists; split; [reflexivity | right; reflexivity] | auto].
  - cbn. split; [eexists; split; [reflexivity | left; reflexivity] | auto].
Qed.


(** X12. Linking is idempotent: once a callback whose stages succeed and
    whose first claims entry can be read has run, running it again on the
    resulting store returns null and changes nothing. *)
Theorem second_callback_is_noop env p s userId tokenData userToken userInfo xid :
  chain_succeeds env p s userId tokenData userToken userInfo ->
  first_claim userInfo "xid" = Ok xid ->
  res (handleCallback env p (store (handleCallback env p s))) = Ok None /\
  store (handleCallback env p (store (handleCallback env p s)))
    = store (handleCallback env p s) /\
  writes (events (handleCallback env p (store (handleCallback env p s)))) = [].
Proof.
  intros H Hx.
  destruct (first_claim_any _ _ _ "gtg" Hx) as [gtg Hg].
  assert (Hs : exists s1, store (handleCallback env p s) = s1 /\
                          known s1 userId xid = true).
  { pose proof H as H'. follow_chain H'. rewrite Hx.
    destruct (known s userId xid) eqn:Hk.
    - exists s. split; [reflexivity | exact Hk].
    - rewrite Hg. exists (s ++ [record_of env p userId tokenData xid gtg]).
      split; [reflexivity|].
      rewrite known_app, known_record. apply orb_true_r. }
  destruct Hs as (s1 & -> & Hk).
  apply (chain_any_store env p s s1) in H.
  follow_chain H. rewrite Hx, Hk. cbn [res store events].
  autorewrite with run. auto.
Qed.

(** X13. The callback keeps the store free of duplicates: if it holds at
    most one record per pair (host user id, external id) before, it does
    so afterwards. *)
Theorem callback_keeps_unique env p s :
  unique s -> unique (store (handleCallback env p s)).
Proof.
  intro Hs. rewrite handleCallback_run. cbv zeta.
  destruct (owner env (state p)) as [userId|]; [|exact Hs].
  each_path userId s; try exact Hs.
  cbn [store]. intros u x. unfold stored_for. rewrite filter_app, length_app.
  cbn [filter record_of user_id external_id].
  destruct (String.eqb userId u && value_eqb xid x) eqn:E.
  - apply andb_prop in E as [E1 E2].
    apply String.eqb_eq in E1. apply value_eqb_eq in E2. subst u x.
    fold (stored_for s userId xid). rewrite (stored_for_unknown _ _ _ Hk).
    cbn. lia.
  - specialize (Hs u x). unfold stored_for in Hs. cbn. lia.
Qed.

(** X14. The callback only ever appends: the store afterwards is the store
    before followed by the records written, of which there is at most
    one, and a record is returned exactly when it was written. *)
Theorem store_grows_by_result env p s :
  store (handleCallback env p s)
    = s ++ writes (events (handleCallback env p s)) /\
  (length (writes (events (handleCallback env p s))) <= 1)%nat /\
  (forall data,
      res (handleCallback env p s) = Ok (Some data) <->
      writes (events (handleCallback env p s)) = [data]).
Proof.
  rewrite handleCallback_run. cbv zeta.
  destruct (owner env (state p)) as [userId|];
    [each_path userId s|]; no_effect; cbn [writes app length];
    rewrite ?app_nil_r;
    (split; [reflexivity|]; split; [lia|]);
    intro data; split; intro H; try discriminate H;
    injection H as <-; reflexivity.
Qed.

(** X15. The errors the callback can end in: the one [getUserId] raised, the
    invalid-state error, GENERAL_ERROR, INVALID_OAUTH_TOKEN, or a TypeError
    from reading the first claims entry. *)
Theorem callback_errors env p s e :
  res (handleCallback env p s) = Throw e ->
  owner env (state p) = Throw e \/
  e = Discord INVALID_OAUTH_STATE \/
  e = Discord GENERAL_ERROR \/
  e = Discord INVALID_OAUTH_TOKEN \/
  e = TypeError.
Proof.
  rewrite handleCallback_run. cbv zeta.
  destruct (owner env (state p)) as [userId|e0]; [|cbn; intro H; injection H as ->; auto].
  each_path userId s; cbn; intro H; try discriminate H; injection H as ->.
  - apply first_claim_throws in Hg. auto 6.
  - apply first_claim_throws in Hx. auto 6.
  - apply getUser_throws in Hc. auto 6.
  - apply getUserToken_throws in Hb as [[_ ->] | [_ ->]]; auto 6.
  - apply get_throws in Ht. auto 6.
  - apply exchangeCode_throws in Ha as [[_ ->] | [_ ->]]; auto 6.
Qed.

(** X16. Whenever the first claims entry of the identity reply cannot be
    read (no [DisplayClaims], no [xui], or nothing at index 0) the
    callback ends in a TypeError after the three requests, with no
    existence check and no write. *)
Theorem unreadable_claims_raise_type_error
    env p s userId tokenData userToken userInfo e :
  chain_succeeds env p s userId tokenData userToken userInfo ->
  first_claim userInfo "xid" = Throw e ->
  e = TypeError /\
  res (handleCallback env p s) = Throw TypeError /\
  length (fetches (events (handleCallback env p s))) = 3%nat /\
  checks (events (handleCallback env p s)) = [] /\
  writes (events (handleCallback env p s)) = [] /\
  store (handleCallback env p s) = s.
Proof.
  intros H Hx. pose proof (first_claim_throws _ _ _ Hx) as ->.
  pose proof H as (_ & Ha' & (tok & Ht' & Hb') & _).
  apply exchangeCode_accepted in Ha'.
  destruct (getUserToken_coercible env _ _ _ Hb') as [ticket Hc'].
  follow_chain H.
  assert (tok = access_token) as -> by congruence.
  rewrite Hx. no_effect.
  rewrite length_app, exchangeCode_fetches, Ha', Hc'. repeat split.
Qed.

(** ** The authorization URL as text *)

Lemma occurrences_app c a b :
  occurrences c (a ++ b)%string = (occurrences c a + occurrences c b)%nat.
Proof.
  induction a as [|x a IH]; [reflexivity|].
  cbn [String.append occurrences]. rewrite IH. lia.
Qed.

Lemma form_byte_separators x :
  occurrences "&" (Encoding.form_byte x) = 0%nat /\
  occurrences "=" (Encoding.form_byte x) = 0%nat /\
  occurrences "?" (Encoding.form_byte x) = 0%nat.
Proof. destruct x as [[] [] [] [] [] [] [] []]; repeat split. Qed.

Lemma form_text_separators t :
  occurrences "&" (Encoding.form_text t) = 0%nat /\
  occurrences "=" (Encoding.form_text t) = 0%nat /\
  occurrences "?" (Encoding.form_text t) = 0%nat.
Proof.
  induction t as [|x t (IH1 & IH2 & IH3)]; [repeat split|].
  cbn [Encoding.form_text]. rewrite !occurrences_app, IH1, IH2, IH3.
  destruct (form_byte_separators x) as (-> & -> & ->). repeat split.
Qed.

(** X17. Whatever the client id, the endpoint setting and the state token
    contain, the authorization URL has one [?] followed by exactly six
    [name=value] pairs: no parameter value can add or cut a parameter. *)
Theorem authorization_url_has_six_parameters env userId :
  occurrences "?" (getAuthorizationUrl env userId) = 1%nat /\
  occurrences "&" (getAuthorizationUrl env userId) = 5%nat /\
  occurrences "=" (getAuthorizationUrl env userId) = 6%nat /\
  map fst (searchParams (authorizationUrl env userId))
    = ["client_id"; "redirect_uri"; "response_type"; "scope"; "state";
       "approval_prompt"].
Proof.
  unfold getAuthorizationUrl, URL_toString, authorizationUrl, append, new_URL.
  cbn [searchParams href app Encoding.form_urlencoded map join fold_left fst snd].
  generalize (setting_text (clientId (settings env))); intro cid.
  generalize (or_else (endpointPrivate env) "http://localhost:3001"
              ++ "/connections/" ++ id ++ "/callback")%string;
    intro redirect.
  generalize (createState env userId); intro st.
  rewrite !occurrences_app.
  repeat match goal with
         | |- context [occurrences _ (Encoding.form_text ?t)] =>
             let H1 := fresh in
             let H2 := fresh in
             let H3 := fresh in
             destruct (form_text_separators t) as (H1 & H2 & H3);
             rewrite ?H1, ?H2, ?H3; clear H1 H2 H3
         end.
  repeat split.
Qed.

(** ** The further properties, run on the scenarios *)

Lemma getUserToken_returns_iff_witness :
  res (getUserToken happy (Some (JStr "AT1")) []) = Ok (Some (JStr "ST1")).
Proof.
  apply (proj2 (getUserToken_returns_iff happy (Some (JStr "AT1")) []
                  (Some (JStr "ST1")))).
  exists "AT1", session_reply. repeat split.
Defined.

Lemma exchangeCode_returns_iff_witness :
  res (exchangeCode happy "state-u1" (Some "abc123") []) = Ok (Some token_reply).
Proof.
  apply (proj2 (exchangeCode_returns_iff happy "state-u1" (Some "abc123") []
                  (Some token_reply))).
  split; [reflexivity|]. exists token_reply, undefined. repeat split.
Defined.

Lemma getUser_returns_iff_witness :
  res (getUser happy (Some (JStr "ST1")) []) = Ok (Some claims_reply).
Proof.
  apply (proj2 (getUser_returns_iff happy (Some (JStr "ST1")) []
                  (Some claims_reply))).
  exists claims_reply, undefined. repeat split.
Defined.



Lemma refused_status_is_reported_witness :
  res (getUserToken outage (Some (JStr "AT1")) [])
    = Throw (Discord INVALID_OAUTH_TOKEN) /\
  map snd (logs (events (getUserToken outage (Some (JStr "AT1")) [])))
    = [ApiError "Failed to get user token" 0 400].
Proof.
  apply (proj1 (proj2 (refused_status_is_reported outage "state-u1"
                         (Some "abc123") (Some (JStr "AT1")) "AT1" []))).
  - reflexivity.
  - exists None. reflexivity.
Defined.

Lemma rejected_state_stops_callback_witness :
  (exists e, res (handleCallback happy forged_callback []) = Throw e /\
             (owner happy (state forged_callback) = Throw e \/
              e = Discord INVALID_OAUTH_STATE)) /\
  fetches (events (handleCallback happy forged_callback [])) = [] /\
  writes (events (handleCallback happy forged_callback [])) = [] /\
  store (handleCallback happy forged_callback []) = [].
Proof.
  apply (rejected_state_stops_callback happy forged_callback []). reflexivity.
Defined.


Lemma second_callback_is_noop_witness :
  res (handleCallback happy callback (store (handleCallback happy callback [])))
    = Ok None /\
  store (handleCallback happy callback (store (handleCallback happy callback [])))
    = store (handleCallback happy callback []) /\
  writes (events (handleCallback happy callback
                    (store (handleCallback happy callback [])))) = [].
Proof.
  apply (second_callback_is_noop happy callback []
           "u1" (Some token_reply) (Some (JStr "ST1")) (Some claims_reply)
           (Some (JStr "X1"))); [chain_holds | reflexivity].
Defined.

Lemma callback_keeps_unique_witness :
  unique (store (handleCallback happy callback [linked])).
Proof.
  apply (callback_keeps_unique happy callback [linked]).
  intros u x. unfold stored_for. cbn [filter linked user_id external_id].
  destruct (String.eqb "u1" u && value_eqb (Some (JStr "X1")) x); simpl; lia.
Defined.

Lemma store_grows_by_result_witness :
  res (handleCallback happy callback []) = Ok (Some linked).
Proof.
  apply (proj2 (proj2 (proj2 (store_grows_by_result happy callback [])) linked)).
  reflexivity.
Defined.

Lemma callback_errors_witness :
  owner session_down (state callback) = Throw (Discord INVALID_OAUTH_TOKEN) \/
  Discord INVALID_OAUTH_TOKEN = Discord INVALID_OAUTH_STATE \/
  Discord INVALID_OAUTH_TOKEN = Discord GENERAL_ERROR \/
  Discord INVALID_OAUTH_TOKEN = Discord INVALID_OAUTH_TOKEN \/
  Discord INVALID_OAUTH_TOKEN = TypeError.
Proof.
  apply (callback_errors session_down callback []). reflexivity.
Defined.

Lemma unreadable_claims_raise_type_error_witness :
  TypeError = TypeError /\
  res (handleCallback no_claims callback []) = Throw TypeError /\
  length (fetches (events (handleCallback no_claims callback []))) = 3%nat /\
  checks (events (handleCallback no_claims callback [])) = [] /\
  writes (events (handleCallback no_claims callback [])) = [] /\
  store (handleCallback no_claims callback []) = [].
Proof.
  apply (unreadable_claims_raise_type_error no_claims callback []
           "u1" (Some token_reply) (Some (JStr "ST1"))
           (Some (JObj [("DisplayClaims", JObj [("xui", JArr [])])])));
    [chain_holds | reflexivity].
Defined.
